(** * nlpyutils: token alignment and feature assembly

    A shallow embedding of [utils/nlpyutils.py] and the properties of it
    that the specification states.

    Conventions of the embedding.
    - A Python [str] is a [string]; its characters are the ASCII ones (the
      case and digit predicates below are the ASCII restrictions of
      Python's).
    - A Python [int] is a [Z].  A [float] is kept as the exact ratio it was
      computed from ([PyFloat num den]); rounding is not modelled.
    - An exception is a value of [exn]; code that may raise returns a
      [result].
    - The expert.ai client ([eai]) is an interface with its own state; the
      calls made to it and the arguments of each [print] are recorded in
      the [World] threaded through the effectful functions. *)

From Stdlib Require Import ZArith String Ascii List Bool Sorted Lia.
From stdpp Require Import base option list gmap strings.
Import ListNotations.

Local Open Scope string_scope.
Local Open Scope list_scope.
Local Open Scope Z_scope.

(** ** Exceptions and results *)

Inductive exn : Type :=
| IndexError
| KeyError (key : string)
| ServiceError (msg : string).

Inductive result (A : Type) : Type :=
| Return (a : A)
| Raise (e : exn).

Arguments Return {A} a.
Arguments Raise {A} e.

Definition result_bind {A B} (r : result A) (k : A -> result B) : result B :=
  match r with
  | Return a => k a
  | Raise e => Raise e
  end.

Definition returns {A} (r : result A) : Prop := exists a, r = Return a.

(** ** Python built-ins used by the module *)

Module Py.

(** [len(s)] *)
Definition len (s : string) : Z := Z.of_nat (String.length s).

(** The position a subscript denotes: a negative one counts from the end. *)
Definition norm_index (n i : Z) : Z := if i <? 0 then i + n else i.

(** [l[i]] on a list: [IndexError] outside [-len(l) <= i < len(l)]. *)
Definition list_getitem {A} (l : list A) (i : Z) : result A :=
  let j := norm_index (Z.of_nat (length l)) i in
  if j <? 0 then Raise IndexError
  else match nth_error l (Z.to_nat j) with
       | Some x => Return x
       | None => Raise IndexError
       end.

(** [s[i]] on a string. *)
Definition getitem (s : string) (i : Z) : result ascii :=
  let j := norm_index (len s) i in
  if j <? 0 then Raise IndexError
  else match String.get (Z.to_nat j) s with
       | Some c => Return c
       | None => Raise IndexError
       end.

(** [s[n:]] and [s[:n]] for a natural [n]. *)
Fixpoint drop (n : nat) (s : string) : string :=
  match n, s with
  | O, _ => s
  | S _, EmptyString => EmptyString
  | S n', String _ s' => drop n' s'
  end.

Fixpoint take (n : nat) (s : string) : string :=
  match n, s with
  | O, _ => EmptyString
  | S _, EmptyString => EmptyString
  | S n', String c s' => String c (take n' s')
  end.

(** [s[-n:]]: the last [n] characters, all of [s] when it is shorter. *)
Definition suffix (n : nat) (s : string) : string :=
  drop (String.length s - n)%nat s.

(** [s.startswith(sub)] *)
Fixpoint startswith (sub s : string) : bool :=
  match sub, s with
  | EmptyString, _ => true
  | String _ _, EmptyString => false
  | String a sub', String b s' => Ascii.eqb a b && startswith sub' s'
  end.

(** The scan of [find]: the first position of [sub] in [s], where the
    first character of [s] has position [i]; [-1] when there is none. *)
Fixpoint find_from (sub s : string) (i : Z) : Z :=
  if startswith sub s then i
  else match s with
       | EmptyString => -1
       | String _ s' => find_from sub s' (i + 1)
       end.

(** [s.find(sub, start)]: a negative [start] counts from the end and is
    clipped at 0; a [start] past the end finds nothing. *)
Definition find (s sub : string) (start : Z) : Z :=
  let n := len s in
  let st := Z.max 0 (norm_index n start) in
  if n <? st then -1 else find_from sub (drop (Z.to_nat st) s) st.

(** [c in s] for a character [c]. *)
Fixpoint contains (c : ascii) (s : string) : bool :=
  match s with
  | EmptyString => false
  | String a s' => Ascii.eqb a c || contains c s'
  end.

(** [s.split(sep)] for a one-character separator. *)
Fixpoint split (sep : ascii) (s : string) : list string :=
  match s with
  | EmptyString => [EmptyString]
  | String c s' =>
      if Ascii.eqb c sep then EmptyString :: split sep s'
      else match split sep s' with
           | [] => [String c EmptyString]
           | h :: t => String c h :: t
           end
  end.

(** [sep.join(l)] *)
Fixpoint join (sep : string) (l : list string) : string :=
  match l with
  | [] => EmptyString
  | [x] => x
  | x :: l' => x +:+ sep +:+ join sep l'
  end.

Definition is_upper (c : ascii) : bool :=
  let n := nat_of_ascii c in (65 <=? n)%nat && (n <=? 90)%nat.
Definition is_lower (c : ascii) : bool :=
  let n := nat_of_ascii c in (97 <=? n)%nat && (n <=? 122)%nat.
Definition is_digit (c : ascii) : bool :=
  let n := nat_of_ascii c in (48 <=? n)%nat && (n <=? 57)%nat.

Definition to_lower (c : ascii) : ascii :=
  if is_upper c then ascii_of_nat (nat_of_ascii c + 32) else c.

(** [s.lower()] *)
Fixpoint lower (s : string) : string :=
  match s with
  | EmptyString => EmptyString
  | String c s' => String (to_lower c) (lower s')
  end.

(** [s.isupper()]: no lowercase character and at least one cased one. *)
Fixpoint isupper_from (cased : bool) (s : string) : bool :=
  match s with
  | EmptyString => cased
  | String c s' =>
      if is_lower c then false
      else isupper_from (cased || is_upper c) s'
  end.
Definition isupper (s : string) : bool := isupper_from false s.

(** [s.istitle()]: an uppercase character only after an uncased one, a
    lowercase one only after a cased one, and at least one cased one. *)
Fixpoint istitle_from (cased previous_is_cased : bool) (s : string) : bool :=
  match s with
  | EmptyString => cased
  | String c s' =>
      if is_upper c then
        if previous_is_cased then false else istitle_from true true s'
      else if is_lower c then
        if previous_is_cased then istitle_from true true s' else false
      else istitle_from cased false s'
  end.
Definition istitle (s : string) : bool := istitle_from false false s.

(** [s.isdigit()]: at least one character and all of them digits. *)
Fixpoint all_digits (s : string) : bool :=
  match s with
  | EmptyString => true
  | String c s' => is_digit c && all_digits s'
  end.
Definition isdigit (s : string) : bool :=
  match s with
  | EmptyString => false
  | _ => all_digits s
  end.

End Py.

(** ** Data model *)

(** A value stored in a feature dictionary. *)
Inductive pyval : Type :=
| PyBool (b : bool)
| PyInt (z : Z)
| PyFloat (num : Z) (den : positive)
| PyStr (s : string)
| PyList (l : list string).

(** A token of an expert.ai document: [t.start], [t.end], [t.pos],
    [t.syncon], [t.dependency.label] and [t.typeclass]. *)
Record Token : Type := mkToken {
  t_start : Z;
  t_end : Z;
  t_pos : string;
  t_syncon : Z;
  t_dependency_label : string;
  t_typeclass : string
}.

(** An entry of [doc.knowledge._k]: [ent['syncon']] and [ent['label']]. *)
Record KnowledgeEntry : Type := mkEntry {
  ent_syncon : Z;
  ent_label : string
}.

(** An expert.ai document.  [knowledge_k] is [None] when [doc.knowledge]
    has no attribute [_k]. *)
Record Document : Type := mkDocument {
  content : string;
  tokens : list Token;
  knowledge_k : option (list KnowledgeEntry)
}.

(** The dictionary built for a raw token.  The key ['typeclass'] is the only
    one that one of the two builders leaves out; [None] stands for the
    missing key. *)
Record AttributeRecord : Type := mkRecord {
  word : string;
  pos : string;
  syncon : Z;
  ancestor : Z;
  dep : string;
  label : string;
  typeclass : option (list string)
}.

(** A feature dictionary. *)
Abbreviation FeatureMap := (gmap string pyval).

(** [d.update({k1: v1, ...})]; a dictionary display is [update ∅]. *)
Definition update (d : FeatureMap) (items : list (string * pyval)) : FeatureMap :=
  foldl (fun m kv => <[kv.1 := kv.2]> m) d items.

(** [token[key]] for the key ['typeclass']. *)
Definition get_typeclass (token : AttributeRecord) : result (list string) :=
  match typeclass token with
  | Some tc => Return tc
  | None => Raise (KeyError "typeclass")
  end.

(** ** The expert.ai client *)

(** The first argument of [kgraph.linked_syncons]. *)
Record LinkParams : Type := mkParams {
  p_syncon : Z;
  p_link_name : string;
  p_direction : string;
  p_level : Z
}.

(** What [kgraph.linked_syncons] returns. *)
Record LinkedSyncons : Type := mkLinked {
  max_records : Z;
  syncon_list : list Z
}.

(** The two operations of the client used by the module, over a client
    state [S]; each may raise. *)
Record Expertai (S : Type) : Type := mkExpertai {
  analyze : string -> list string -> S -> result Document * S;
  linked_syncons : LinkParams -> Z -> Z -> S -> result LinkedSyncons * S
}.

Arguments analyze {S} _ _ _ _.
Arguments linked_syncons {S} _ _ _ _ _.

(** A call made to the client. *)
Inductive call : Type :=
| CallAnalyze (text : string) (features : list string)
| CallLinkedSyncons (params : LinkParams) (offset limit : Z).

(** The state threaded through the effectful functions: the client's own
    state, the calls made to it so far and the argument lists of the
    [print] calls so far. *)
Record World (S : Type) : Type := mkWorld {
  svc : S;
  calls : list call;
  stdout : list (list pyval)
}.

Arguments mkWorld {S} _ _ _.
Arguments svc {S} _.
Arguments calls {S} _.
Arguments stdout {S} _.

Definition M (S A : Type) : Type := World S -> result A * World S.

Definition ret {S A} (a : A) : M S A := fun w => (Return a, w).

Definition bind {S A B} (c : M S A) (k : A -> M S B) : M S B :=
  fun w => match c w with
           | (Return a, w') => k a w'
           | (Raise e, w') => (Raise e, w')
           end.

Definition lift {S A} (r : result A) : M S A := fun w => (r, w).

(** [try: body / except: handler] with a bare [except]. *)
Definition try_except {S A} (body handler : M S A) : M S A :=
  fun w => match body w with
           | (Return a, w') => (Return a, w')
           | (Raise _, w') => handler w'
           end.

Notation "'let*' x ':=' c 'in' k" := (bind c (fun x => k))
  (at level 10, x pattern, c at level 100, k at level 200).

Notation "'let+' x ':=' c 'in' k" := (result_bind c (fun x => k))
  (at level 10, x pattern, c at level 100, k at level 200).

(** [print(a1, a2, ...)] *)
Definition print {S} (args : list pyval) : M S unit :=
  fun w => (Return tt, mkWorld (svc w) (calls w) (stdout w ++ [args])).

(** [eai.analyze(text, {'features': features})] *)
Definition eai_analyze {S} (eai : Expertai S) (text : string)
    (features : list string) : M S Document :=
  fun w => let '(r, s) := analyze eai text features (svc w) in
           (r, mkWorld s (calls w ++ [CallAnalyze text features]) (stdout w)).

(** [eai.kgraph.linked_syncons(params, offset, limit)] *)
Definition eai_linked_syncons {S} (eai : Expertai S) (params : LinkParams)
    (offset limit : Z) : M S LinkedSyncons :=
  fun w => let '(r, s) := linked_syncons eai params offset limit (svc w) in
           (r, mkWorld s (calls w ++ [CallLinkedSyncons params offset limit])
                 (stdout w)).

(** [enumerate(l)], counting from [i]. *)
Fixpoint enumerate_from {A} (i : Z) (l : list A) : list (Z * A) :=
  match l with
  | [] => []
  | x :: l' => (i, x) :: enumerate_from (i + 1) l'
  end.

Definition enumerate {A} (l : list A) : list (Z * A) := enumerate_from 0 l.

(** ** The module *)

(** The option dictionary passed to [analyze]. *)
Definition analysis_features : list string := ["dependency"; "knowledge"].

(** [tokens_to_docs(raw, eai)].  The progress bar around the iteration is
    left out here and below. *)
Fixpoint tokens_to_docs_loop {S} (eai : Expertai S) (raw : list (list string))
    (docs : list Document) : M S (list Document) :=
  match raw with
  | [] => ret docs
  | sent :: raw' =>
      let* doc := eai_analyze eai (Py.join " " sent) analysis_features in
      tokens_to_docs_loop eai raw' (docs ++ [doc])
  end.

Definition tokens_to_docs {S} (raw : list (list string)) (eai : Expertai S)
    : M S (list Document) :=
  tokens_to_docs_loop eai raw [].

(** [tokens_to_docs_safe(raw, eai)]: the loop carries [docs] and [errors]. *)
Fixpoint tokens_to_docs_safe_loop {S} (eai : Expertai S)
    (raw : list (Z * list string)) (docs : list Document) (errors : list Z)
    : M S (list Document * list Z) :=
  match raw with
  | [] => ret (docs, errors)
  | (idx, sent) :: raw' =>
      let* (docs', errors') :=
        try_except
          (let* doc := eai_analyze eai (Py.join " " sent) analysis_features in
           ret (docs ++ [doc], errors))
          (ret (docs, errors ++ [idx])) in
      tokens_to_docs_safe_loop eai raw' docs' errors'
  end.

Definition tokens_to_docs_safe {S} (raw : list (list string)) (eai : Expertai S)
    : M S (list Document * list Z) :=
  let* (docs, errors) := tokens_to_docs_safe_loop eai (enumerate raw) [] [] in
  let* _ := print [PyInt (Z.of_nat (length errors)); PyStr "errors"] in
  ret (docs, errors).

(** [_voidtoken()] *)
Definition _voidtoken : AttributeRecord :=
  {| word := "";
     pos := "";
     syncon := -1;
     ancestor := -1;
     dep := "";
     label := "";
     typeclass := None |}.

(** [_get_ancestor(syncon, eai)] *)
Definition _get_ancestor {S} (syncon : Z) (eai : Expertai S) : M S Z :=
  if syncon =? -1 then ret (-1)
  else
    let params := {| p_syncon := syncon;
                     p_link_name := "supernomen/subnomen";
                     p_direction := "from";
                     p_level := 1 |} in
    let* ancestor := eai_linked_syncons eai params 0 1 in
    if max_records ancestor =? 0 then ret (-1)
    else lift (Py.list_getitem (syncon_list ancestor) 0).

(** The [for ent in doc.knowledge._k] loop of [_get_label], which leaves
    [label] at [''] or at the label of the first entry of that syncon. *)
Fixpoint scan_label (k : list KnowledgeEntry) (syncon : Z) : string :=
  match k with
  | [] => ""
  | ent :: k' =>
      if ent_syncon ent =? syncon then ent_label ent
      else scan_label k' syncon
  end.

(** The truth value of a string: it is not empty. *)
Definition truthy (s : string) : bool :=
  match s with
  | EmptyString => false
  | _ => true
  end.

(** [_get_label(doc, syncon)] *)
Definition _get_label (doc : Document) (syncon : Z) : result string :=
  match knowledge_k doc with
  | Some k =>
      let label := scan_label k syncon in
      if truthy label && Py.contains "." label
      then Py.list_getitem (Py.split "." label) (-1)
      else Return label
  | None => Return ""
  end.

(** The test of [nlpy_features] for an expert.ai token to be a possible
    counterpart of the text between [index_start] and [index_end]. *)
Definition overlaps (index_start index_end : Z) (t : Token) : bool :=
  ((t_start t <=? index_start) && (t_end t >=? index_end))
  || ((t_start t >=? index_start) && (t_start t <=? index_end))
  || ((t_end t >=? index_start) && (t_end t <=? index_end)).

(** [l.sort(key=key, reverse=True)]: the sort is stable, so elements of
    equal key keep their order.  Insertion from the right gives that
    order: an element goes before the first one whose key is not larger. *)
Fixpoint insert_reverse {A} (key : A -> Z) (x : A) (l : list A) : list A :=
  match l with
  | [] => [x]
  | y :: l' =>
      if key y <=? key x then x :: l else y :: insert_reverse key x l'
  end.

Fixpoint sort_reverse {A} (key : A -> Z) (l : list A) : list A :=
  match l with
  | [] => []
  | x :: l' => insert_reverse key x (sort_reverse key l')
  end.

(** The candidates in the order the record is read from: sorted when there
    is more than one. *)
Definition ranked (possible_tokens : list Token) : list Token :=
  if Z.of_nat (length possible_tokens) >? 1
  then sort_reverse t_syncon possible_tokens
  else possible_tokens.

(** The loop [while content[seek] == ' ': seek += 1], run for at most
    [fuel] tests; [None] when they do not suffice. *)
Fixpoint skip_spaces_loop (fuel : nat) (content : string) (seek : Z)
    : option (result Z) :=
  match fuel with
  | O => None
  | S fuel' =>
      match Py.getitem content seek with
      | Raise e => Some (Raise e)
      | Return c =>
          if Ascii.eqb c " " then skip_spaces_loop fuel' content (seek + 1)
          else Some (Return seek)
      end
  end.

(** Tests that always suffice (lemma [skip_spaces_loop_fuel]): the cursor
    only moves right and a test at or past the end raises. *)
Definition skip_spaces_fuel (content : string) (seek : Z) : nat :=
  S (Z.to_nat (Py.len content - seek)).

Definition skip_spaces (content : string) (seek : Z) : result Z :=
  match skip_spaces_loop (skip_spaces_fuel content seek) content seek with
  | Some r => r
  | None => Raise IndexError
  end.

(** The body of the loop over the tokens of a sentence in [nlpy_features]:
    the record for [token] and the cursor after it. *)
Definition align_token {S} (docs : list Document) (sent_idx : Z) (eai : Expertai S)
    (token : string) (seek : Z) : M S (AttributeRecord * Z) :=
  let* doc := lift (Py.list_getitem docs sent_idx) in
  let index_start := Py.find (content doc) token seek in
  let index_end := index_start + Py.len token in
  let possible_tokens := List.filter (overlaps index_start index_end)
                                      (tokens doc) in
  let* new_token :=
    match possible_tokens with
    | [] =>
        let* _ := print [PyStr "ERROR: expertai tokenization not found for token";
                         PyStr token] in
        ret _voidtoken
    | _ =>
        let possible_tokens := ranked possible_tokens in
        let* t0 := lift (Py.list_getitem possible_tokens 0) in
        let* anc := _get_ancestor (t_syncon t0) eai in
        let* lab := lift (_get_label doc (t_syncon t0)) in
        ret {| word := token;
               pos := t_pos t0;
               syncon := t_syncon t0;
               ancestor := anc;
               label := lab;
               dep := t_dependency_label t0;
               typeclass := Some (Py.split "." (t_typeclass t0)) |}
    end in
  let* seek := lift (skip_spaces (content doc) index_end) in
  ret (new_token, seek).

(** The loop over the tokens of one sentence: [eai_tokenlist] and [seek]
    are the loop's variables. *)
Fixpoint align_sentence {S} (docs : list Document) (sent_idx : Z) (eai : Expertai S)
    (sentence : list string) (seek : Z) (eai_tokenlist : list AttributeRecord)
    : M S (list AttributeRecord) :=
  match sentence with
  | [] => ret eai_tokenlist
  | token :: sentence' =>
      let* (new_token, seek') := align_token docs sent_idx eai token seek in
      align_sentence docs sent_idx eai sentence' seek' (eai_tokenlist ++ [new_token])
  end.

(** The loop over the sentences. *)
Fixpoint nlpy_features_loop {S} (sentences : list (Z * list string))
    (docs : list Document) (eai : Expertai S)
    (eai_sents : list (list AttributeRecord))
    : M S (list (list AttributeRecord)) :=
  match sentences with
  | [] => ret eai_sents
  | (sent_idx, sentence) :: sentences' =>
      let* eai_tokenlist := align_sentence docs sent_idx eai sentence 0 [] in
      nlpy_features_loop sentences' docs eai (eai_sents ++ [eai_tokenlist])
  end.

(** [nlpy_features(sentences, docs, eai)] *)
Definition nlpy_features {S} (sentences : list (list string))
    (docs : list Document) (eai : Expertai S)
    : M S (list (list AttributeRecord)) :=
  nlpy_features_loop (enumerate sentences) docs eai [].

(** The value of ['nlpy.syncon'] and ['nlpy.ancestor']:
    [-1 if x == -1 else x / 10000.] *)
Definition scaled (x : Z) : pyval :=
  if x =? -1 then PyInt (-1) else PyFloat x 10000.

(** The entries for a neighbour [token1], under the prefix [pre]. *)
Definition neighbour_items (pre : string) (token1 : AttributeRecord)
    (tc1 : list string) : list (string * pyval) :=
  [ (pre +:+ "word.lower()", PyStr (Py.lower (word token1)));
    (pre +:+ "word.istitle()", PyBool (Py.istitle (word token1)));
    (pre +:+ "word.isupper()", PyBool (Py.isupper (word token1)));
    (pre +:+ "nlpy.postag", PyStr (pos token1));
    (pre +:+ "nlpy.deptag", PyStr (dep token1));
    (pre +:+ "nlpy.labels", PyStr (label token1));
    (pre +:+ "nlpy.typeclass", PyList tc1) ].

(** [_nlpy_word_features(sentence, idx)] *)
Definition _nlpy_word_features (sentence : list AttributeRecord) (idx : Z)
    : result FeatureMap :=
  let+ token := Py.list_getitem sentence idx in
  let+ tc := get_typeclass token in
  let features : FeatureMap := update ∅
    [ ("bias", PyFloat 1 1);
      ("word.lower()", PyStr (Py.lower (word token)));
      ("word[-3:]", PyStr (Py.suffix 3 (word token)));
      ("word[-2:]", PyStr (Py.suffix 2 (word token)));
      ("word.isupper()", PyBool (Py.isupper (word token)));
      ("word.istitle()", PyBool (Py.istitle (word token)));
      ("word.isdigit()", PyBool (Py.isdigit (word token)));
      ("nlpy.postag", PyStr (pos token));
      ("nlpy.postag[:2]", PyStr (Py.take 2 (pos token)));
      ("nlpy.deptag", PyStr (dep token));
      ("nlpy.deptag[-2:]", PyStr (Py.suffix 2 (dep token)));
      ("nlpy.syncon", scaled (syncon token));
      ("nlpy.ancestor", scaled (ancestor token));
      ("nlpy.labels", PyStr (label token));
      ("nlpy.typeclass", PyList tc) ] in
  let+ features :=
    if idx >? 0 then
      let+ token1 := Py.list_getitem sentence (idx - 1) in
      let+ tc1 := get_typeclass token1 in
      Return (update features (neighbour_items "-1:" token1 tc1))
    else Return (<["BOS" := PyBool true]> features) in
  let+ features :=
    if idx <? Z.of_nat (length sentence) - 1 then
      let+ token1 := Py.list_getitem sentence (idx - 1) in
      let+ tc1 := get_typeclass token1 in
      Return (update features (neighbour_items "+1:" token1 tc1))
    else Return (<["EOS" := PyBool true]> features) in
  Return features.

(** [range(n)] *)
Definition range (n : nat) : list Z := map Z.of_nat (seq 0 n).

(** [tuple(f(x) for x in l)]: the first exception ends the construction. *)
Fixpoint tuple_of {A B} (f : A -> result B) (l : list A) : result (list B) :=
  match l with
  | [] => Return []
  | x :: l' =>
      let+ y := f x in
      let+ ys := tuple_of f l' in
      Return (y :: ys)
  end.

(** [nlpy_sentence_features(sentence)] *)
Definition nlpy_sentence_features (sentence : list AttributeRecord)
    : result (list FeatureMap) :=
  tuple_of (_nlpy_word_features sentence) (range (length sentence)).

(** ** Concrete inputs *)

Module Sample.

(** A client without state that analyses every text but ["bad"] and
    answers every lookup with the next syncon. *)
Definition eai : Expertai unit :=
  {| analyze := fun text _ s =>
       (if String.eqb text "bad" then Raise (ServiceError "analyze")
        else Return (mkDocument text [] None), s);
     linked_syncons := fun params _ _ s =>
       (Return (mkLinked 1 [p_syncon params + 1]), s) |}.

(** A client whose knowledge graph cannot be reached. *)
Definition eai_down : Expertai unit :=
  {| analyze := fun text _ s => (Return (mkDocument text [] None), s);
     linked_syncons := fun _ _ _ s => (Raise (ServiceError "kgraph"), s) |}.

Definition w0 : World unit := mkWorld tt [] [].

Definition cats_tokens : list Token :=
  [ mkToken 0 4 "NOU" 100 "nsubj" "NOU.animal";
    mkToken 5 8 "VER" 200 "root" "VER";
    mkToken 9 15 "ADJ" (-1) "acomp" "ADJ" ].

(** The analysis of [cats are great]: the text is the tokens joined by
    single spaces. *)
Definition cats : Document :=
  mkDocument "cats are great" cats_tokens (Some [mkEntry 100 "animal.cat"]).

(** The same with a full stop after the last token. *)
Definition cats_stop : Document :=
  mkDocument "cats are great." cats_tokens (Some [mkEntry 100 "animal.cat"]).

Definition raw_cats : list string := ["cats"; "are"; "great"].

(** A text none of whose tokens expert.ai reports. *)
Definition unmatched : Document := mkDocument "xyz." [] None.

(** A knowledge set with an entry for the concept id [-1]. *)
Definition minus_one : Document :=
  mkDocument "it" [mkToken 0 2 "PRO" (-1) "nsubj" "PRO"]
             (Some [mkEntry 7 "thing"; mkEntry (-1) "unknown.none"]).

(** The same document with a full stop after its token. *)
Definition minus_one_stop : Document :=
  mkDocument "it." [mkToken 0 2 "PRO" (-1) "nsubj" "PRO"]
             (Some [mkEntry 7 "thing"; mkEntry (-1) "unknown.none"]).

(** A text whose middle word expert.ai reports no token for. *)
Definition gap : Document :=
  mkDocument "cats xyz great."
             [ mkToken 0 4 "NOU" (-1) "nsubj" "NOU";
               mkToken 9 14 "ADJ" (-1) "acomp" "ADJ" ]
             None.

(** The knowledge set of the example of label resolution. *)
Definition foo : Document :=
  mkDocument "" [] (Some [mkEntry 42 "foo.bar.baz"]).

(** A text whose first word three expert.ai tokens cover, two of them
    with the same syncon. *)
Definition new_york : Document :=
  mkDocument "New York."
             [ mkToken 0 3 "ADJ" 30 "amod" "ADJ";
               mkToken 0 8 "NPR" 500 "root" "NPR.GEO";
               mkToken 0 3 "NOU" 500 "nmod" "NOU" ]
             None.

Definition r0 : AttributeRecord :=
  mkRecord "Cats" "NOU" 100 101 "nsubj" "cat" (Some ["NOU"; "animal"]).
Definition r1 : AttributeRecord :=
  mkRecord "are" "VER" 200 201 "root" "" (Some ["VER"]).
Definition r2 : AttributeRecord :=
  mkRecord "great" "ADJ" (-1) (-1) "acomp" "" (Some ["ADJ"]).

End Sample.

(** ** Notions used in the statements *)

(** What [_get_label] makes of the label the scan stops at. *)
Definition leaf_of (label leaf : string) : Prop :=
  if Py.contains "." label
  then exists pre, label = pre +:+ String "." leaf
                   /\ Py.contains "." leaf = false
  else leaf = label.

(** The outcomes of analysing [texts] one after the other from the client
    state [s], and the client state after the last of them. *)
Fixpoint analyses {S} (eai : Expertai S) (texts : list string) (s : S)
    : list (result Document) * S :=
  match texts with
  | [] => ([], s)
  | text :: texts' =>
      let '(r, s') := analyze eai text analysis_features s in
      let '(rs, s'') := analyses eai texts' s' in
      (r :: rs, s'')
  end.

(** The documents among the outcomes, in their order. *)
Fixpoint analysed (outcomes : list (result Document)) : list Document :=
  match outcomes with
  | [] => []
  | Return doc :: outcomes' => doc :: analysed outcomes'
  | Raise _ :: outcomes' => analysed outcomes'
  end.

(** The analysis of the sentence of index [i] raised. *)
Definition raised_at (outcomes : list (result Document)) (i : Z) : Prop :=
  0 <= i /\ exists e, nth_error outcomes (Z.to_nat i) = Some (Raise e).

(** The texts submitted for the sentences [raw]. *)
Definition texts_of (raw : list (list string)) : list string :=
  map (Py.join " ") raw.

(** The indices, counted from [i], of the outcomes that are exceptions. *)
Fixpoint failed_from (i : Z) (outcomes : list (result Document)) : list Z :=
  match outcomes with
  | [] => []
  | Return _ :: outcomes' => failed_from (i + 1) outcomes'
  | Raise _ :: outcomes' => i :: failed_from (i + 1) outcomes'
  end.

(** [t] is the first element of [l] among those of largest [key]. *)
Definition first_largest {A} (key : A -> Z) (l : list A) (t : A) : Prop :=
  exists before after,
    l = before ++ t :: after
    /\ (forall u, In u before -> key u < key t)
    /\ (forall u, In u after -> key u <= key t).

(** The candidates of [nlpy_features] for [token] with the cursor at
    [seek]. *)
Definition candidates (doc : Document) (token : string) (seek : Z) : list Token :=
  let index_start := Py.find (content doc) token seek in
  let index_end := index_start + Py.len token in
  List.filter (overlaps index_start index_end) (tokens doc).

(** A record that has the key ['typeclass']. *)
Definition complete (r : AttributeRecord) : Prop := typeclass r <> None.

(** The names of the features copied from a neighbour. *)
Definition neighbour_names : list string :=
  [ "word.lower()"; "word.istitle()"; "word.isupper()"; "nlpy.postag";
    "nlpy.deptag"; "nlpy.labels"; "nlpy.typeclass" ].

(** The values a feature dictionary has at these names under the prefix
    [pre]. *)
Definition neighbour_values (pre : string) (f : FeatureMap) : list (option pyval) :=
  map (fun name => f !! (pre +:+ name)) neighbour_names.

(** The attributes of a record that these features are meant to copy. *)
Definition attributes_of (r : AttributeRecord) : list (option pyval) :=
  [ Some (PyStr (Py.lower (word r)));
    Some (PyBool (Py.istitle (word r)));
    Some (PyBool (Py.isupper (word r)));
    Some (PyStr (pos r));
    Some (PyStr (dep r));
    Some (PyStr (label r));
    PyList <$> typeclass r ].

(** The dictionary has no key that starts with [pre]. *)
Definition no_key_with_prefix (pre : string) (f : FeatureMap) : Prop :=
  forall k, Py.startswith pre k = true -> f !! k = None.

(** The dictionary has every neighbour feature under the prefix [pre]. *)
Definition has_neighbour_keys (pre : string) (f : FeatureMap) : Prop :=
  forall name, In name neighbour_names -> is_Some (f !! (pre +:+ name)).

(** The record [r] stands for the raw token [token]: it is the sentinel or
    carries the token as its word. *)
Definition record_of (token : string) (r : AttributeRecord) : Prop :=
  r = _voidtoken \/ word r = token.

(** One record for each raw token of each sentence, in their order. *)
Definition one_record_per_token (sentences : list (list string))
    (eai_sents : list (list AttributeRecord)) : Prop :=
  Forall2 (fun sentence eai_tokenlist =>
             length eai_tokenlist = length sentence
             /\ Forall2 record_of sentence eai_tokenlist)
          sentences eai_sents.

(** C5 as it is stated, for one input: the alignment yields the records. *)
Definition yields_records {S} (sentences : list (list string))
    (docs : list Document) (eai : Expertai S) (w : World S) : Prop :=
  exists eai_sents w',
    nlpy_features sentences docs eai w = (Return eai_sents, w')
    /\ one_record_per_token sentences eai_sents.

(** A raw token of an ordinary sentence: not empty and without a space. *)
Definition plain (token : string) : Prop :=
  token <> "" /\ Py.contains " " token = false.

(** The record that [nlpy_features] builds for the raw token [token] from
    the expert.ai token [t], the ancestor [anc] and the label [lab]. *)
Definition record_from (token : string) (t : Token) (anc : Z) (lab : string)
    : AttributeRecord :=
  {| word := token;
     pos := t_pos t;
     syncon := t_syncon t;
     ancestor := anc;
     dep := t_dependency_label t;
     label := lab;
     typeclass := Some (Py.split "." (t_typeclass t)) |}.

(** ** Notions used in the further properties *)

(** The index and the exception of the first outcome that is one. *)
Fixpoint first_failure (outcomes : list (result Document)) : option (nat * exn) :=
  match outcomes with
  | [] => None
  | Return _ :: outcomes' =>
      match first_failure outcomes' with
      | Some (i, e) => Some (Datatypes.S i, e)
      | None => None
      end
  | Raise e :: _ => Some (O, e)
  end.

(** The calls that submit [texts]. *)
Definition submissions (texts : list string) : list call :=
  map (fun text => CallAnalyze text analysis_features) texts.

(** The call that looks up the ancestor of the syncon of a token of one of
    the documents, a syncon other than [-1]. *)
Definition ancestor_lookup_of (docs : list Document) (c : call) : Prop :=
  exists doc t,
    In doc docs /\ In t (tokens doc) /\ t_syncon t <> -1
    /\ c = CallLinkedSyncons
             (mkParams (t_syncon t) "supernomen/subnomen" "from" 1) 0 1.

(** The arguments of the [print] for a raw token without candidate. *)
Definition diagnostic (token : string) : list pyval :=
  [PyStr "ERROR: expertai tokenization not found for token"; PyStr token].

(** The raw tokens of a sentence whose record has no ['typeclass']. *)
Fixpoint unmatched_tokens (sentence : list string) (recs : list AttributeRecord)
    : list string :=
  match sentence, recs with
  | token :: sentence', r :: recs' =>
      match typeclass r with
      | None => token :: unmatched_tokens sentence' recs'
      | Some _ => unmatched_tokens sentence' recs'
      end
  | _, _ => []
  end.

(** The same over the sentences of a batch. *)
Fixpoint unmatched_in (sentences : list (list string))
    (eai_sents : list (list AttributeRecord)) : list string :=
  match sentences, eai_sents with
  | sentence :: sentences', recs :: eai_sents' =>
      unmatched_tokens sentence recs ++ unmatched_in sentences' eai_sents'
  | _, _ => []
  end.

(** What holds of every record that the alignment builds. *)
Definition record_ok (r : AttributeRecord) : Prop :=
  (syncon r = -1 -> ancestor r = -1)
  /\ Py.contains "." (label r) = false
  /\ match typeclass r with
     | Some tc => tc <> []
     | None => r = _voidtoken
     end.

(** The names of the features of the token itself. *)
Definition own_names : list string :=
  [ "bias"; "word.lower()"; "word[-3:]"; "word[-2:]"; "word.isupper()";
    "word.istitle()"; "word.isdigit()"; "nlpy.postag"; "nlpy.postag[:2]";
    "nlpy.deptag"; "nlpy.deptag[-2:]"; "nlpy.syncon"; "nlpy.ancestor";
    "nlpy.labels"; "nlpy.typeclass" ].

(** The values these features are to have for the record [token]. *)
Definition own_values (token : AttributeRecord) : list (option pyval) :=
  [ Some (PyFloat 1 1);
    Some (PyStr (Py.lower (word token)));
    Some (PyStr (Py.suffix 3 (word token)));
    Some (PyStr (Py.suffix 2 (word token)));
    Some (PyBool (Py.isupper (word token)));
    Some (PyBool (Py.istitle (word token)));
    Some (PyBool (Py.isdigit (word token)));
    Some (PyStr (pos token));
    Some (PyStr (Py.take 2 (pos token)));
    Some (PyStr (dep token));
    Some (PyStr (Py.suffix 2 (dep token)));
    Some (if syncon token =? -1 then PyInt (-1) else PyFloat (syncon token) 10000);
    Some (if ancestor token =? -1 then PyInt (-1) else PyFloat (ancestor token) 10000);
    Some (PyStr (label token));
    PyList <$> typeclass token ].

(** The keys of the dictionary of the token of index [idx] among [n]. *)
Definition feature_names (n idx : Z) : list string :=
  own_names
  ++ (if idx >? 0 then map (fun name => "-1:" +:+ name) neighbour_names
      else ["BOS"])
  ++ (if idx <? n - 1 then map (fun name => "+1:" +:+ name) neighbour_names
      else ["EOS"]).

(** * Properties *)

(** ** The built-ins on examples *)

Example find_ex1 : Py.find "cats are great" "are" 5 = 5.
Proof. reflexivity. Qed.
Example find_ex2 : Py.find "cats are great" "dog" 0 = -1.
Proof. reflexivity. Qed.
Example find_ex3 : Py.find "abc" "" 4 = -1 /\ Py.find "abc" "" 3 = 3.
Proof. split; reflexivity. Qed.
Example find_ex4 : Py.find "abcabc" "b" (-2) = 4.
Proof. reflexivity. Qed.
Example split_ex : Py.split "." "foo.bar.baz" = ["foo"; "bar"; "baz"]
                   /\ Py.split "." "a." = ["a"; ""] /\ Py.split "." "" = [""].
Proof. repeat split; reflexivity. Qed.
Example getitem_ex : Py.getitem "abc" (-1) = Return "c"%char
                     /\ Py.getitem "abc" 3 = Raise IndexError
                     /\ Py.getitem "abc" (-4) = Raise IndexError.
Proof. repeat split; reflexivity. Qed.
Example case_ex : Py.istitle "Hello World" = true /\ Py.istitle "HeLlo" = false
                  /\ Py.isupper "ABC1" = true /\ Py.isupper "12" = false
                  /\ Py.lower "AbC" = "abc" /\ Py.suffix 3 "ab" = "ab"
                  /\ Py.suffix 2 "great" = "at" /\ Py.isdigit "" = false.
Proof. repeat split; reflexivity. Qed.

(** ** Subscripts and the cursor loop *)

Lemma get_Some_lt (s : string) (n : nat) (c : ascii) :
  String.get n s = Some c -> (n < String.length s)%nat.
Proof.
  revert n; induction s as [|a s IH]; intros [|n] H; simpl in *;
    try discriminate; try lia.
  apply IH in H. lia.
Qed.

Lemma get_None_ge (s : string) (n : nat) :
  String.get n s = None <-> (String.length s <= n)%nat.
Proof.
  revert n; induction s as [|a s IH]; intros [|n]; simpl;
    try (split; [lia | reflexivity]).
  - split; [discriminate | lia].
  - rewrite IH. lia.
Qed.

Lemma getitem_Return_bounds (s : string) (i : Z) (c : ascii) :
  Py.getitem s i = Return c -> - Py.len s <= i < Py.len s.
Proof.
  unfold Py.getitem, Py.norm_index, Py.len.
  destruct (i <? 0) eqn:Hi;
    [apply Z.ltb_lt in Hi | apply Z.ltb_ge in Hi].
  - destruct (i + _ <? 0) eqn:Hj; [discriminate|]. apply Z.ltb_ge in Hj.
    intros _. lia.
  - destruct (i <? 0) eqn:Hj; [discriminate|].
    destruct (String.get _ s) eqn:Hg; [|discriminate].
    apply get_Some_lt in Hg. intros _. lia.
Qed.

Lemma getitem_past_end (s : string) (i : Z) :
  Py.len s <= i -> Py.getitem s i = Raise IndexError.
Proof.
  intros H. destruct (Py.getitem s i) as [c|e] eqn:Hg.
  - apply getitem_Return_bounds in Hg. lia.
  - revert Hg. unfold Py.getitem.
    destruct (_ <? 0); [congruence|]. destruct (String.get _ s); congruence.
Qed.

Lemma getitem_Raise (s : string) (i : Z) (e : exn) :
  Py.getitem s i = Raise e -> e = IndexError.
Proof.
  unfold Py.getitem. destruct (_ <? 0); [congruence|].
  destruct (String.get _ s); congruence.
Qed.

(** The fuel of [skip_spaces] is never used up. *)
Lemma skip_spaces_loop_fuel (content : string) (fuel : nat) (seek : Z) :
  (Z.to_nat (Py.len content - seek) < fuel)%nat ->
  skip_spaces_loop fuel content seek <> None.
Proof.
  revert seek; induction fuel as [|fuel IH]; intros seek Hf; [lia|].
  simpl. destruct (Py.getitem content seek) as [c|e] eqn:Hg; [|discriminate].
  destruct (Ascii.eqb c " "); [|discriminate].
  apply getitem_Return_bounds in Hg. apply IH. lia.
Qed.

(** [skip_spaces] is the [while] loop: one test, then the loop again. *)
Lemma skip_spaces_unfold (content : string) (seek : Z) :
  skip_spaces content seek =
  match Py.getitem content seek with
  | Raise e => Raise e
  | Return c =>
      if Ascii.eqb c " " then skip_spaces content (seek + 1) else Return seek
  end.
Proof.
  unfold skip_spaces at 1. unfold skip_spaces_fuel. simpl.
  destruct (Py.getitem content seek) as [c|e] eqn:Hg; [|reflexivity].
  destruct (Ascii.eqb c " "); [|reflexivity].
  apply getitem_Return_bounds in Hg.
  unfold skip_spaces, skip_spaces_fuel.
  replace (Z.to_nat (Py.len content - seek))
    with (S (Z.to_nat (Py.len content - (seek + 1)))) by lia.
  reflexivity.
Qed.

Lemma skip_spaces_Raise (content : string) (seek : Z) (e : exn) :
  skip_spaces content seek = Raise e -> e = IndexError.
Proof.
  unfold skip_spaces.
  generalize (skip_spaces_fuel content seek) as fuel. intros fuel; revert seek.
  induction fuel as [|fuel IH]; intros seek; simpl; [congruence|].
  destruct (Py.getitem content seek) as [c|e'] eqn:Hg.
  - destruct (Ascii.eqb c " "); [apply IH | discriminate].
  - intros [= <-]. eapply getitem_Raise; eauto.
Qed.

(** At the end of the text the loop reads [content[len(content)]]. *)
Lemma skip_spaces_at_end (content : string) (seek : Z) :
  Py.len content <= seek -> skip_spaces content seek = Raise IndexError.
Proof.
  intros H. rewrite skip_spaces_unfold, getitem_past_end; auto.
Qed.

(** ** Lists and [split] *)

Lemma list_getitem_last {A} (l : list A) (d : A) :
  l <> [] -> Py.list_getitem l (-1) = Return (List.last l d).
Proof.
  intros Hl. unfold Py.list_getitem, Py.norm_index.
  replace (-1 <? 0) with true by reflexivity.
  destruct (-1 + Z.of_nat (length l) <? 0) eqn:Hn.
  - apply Z.ltb_lt in Hn. destruct l; [congruence | simpl in Hn; lia].
  - replace (Z.to_nat (-1 + Z.of_nat (length l))) with (pred (length l)) by lia.
    clear Hn. induction l as [|x l IH]; [congruence|].
    destruct l as [|y l]; [reflexivity|].
    change (List.last (x :: y :: l) d) with (List.last (y :: l) d).
    rewrite <- IH by discriminate. reflexivity.
Qed.

Lemma list_getitem_0 {A} (x : A) (l : list A) :
  Py.list_getitem (x :: l) 0 = Return x.
Proof. reflexivity. Qed.

Lemma split_nonempty (sep : ascii) (s : string) : Py.split sep s <> [].
Proof.
  destruct s as [|c s]; simpl; [discriminate|].
  destruct (Ascii.eqb c sep); [discriminate|].
  destruct (Py.split sep s); discriminate.
Qed.

Lemma split_no_sep (sep : ascii) (s : string) :
  Py.contains sep s = false -> Py.split sep s = [s].
Proof.
  induction s as [|c s IH]; simpl; [reflexivity|].
  destruct (Ascii.eqb c sep); simpl; [discriminate|].
  intros H. rewrite IH by assumption. reflexivity.
Qed.

Lemma split_single (sep : ascii) (s h : string) :
  Py.split sep s = [h] -> Py.contains sep s = false.
Proof.
  revert h; induction s as [|c s IH]; intros h; simpl; [reflexivity|].
  destruct (Ascii.eqb c sep); simpl.
  - intros [= _ H]. exfalso. eapply split_nonempty; eauto.
  - destruct (Py.split sep s) as [|h' t] eqn:Hsp; [intros _|].
    + exfalso. eapply split_nonempty; eauto.
    + intros [= _ ->]. eapply IH; eauto.
Qed.

(** The last piece of a string that has a separator is what follows the
    last separator. *)
Lemma split_last_sep (sep : ascii) (s : string) :
  Py.contains sep s = true ->
  exists pre leaf,
    s = pre +:+ String sep leaf
    /\ Py.contains sep leaf = false
    /\ List.last (Py.split sep s) EmptyString = leaf.
Proof.
  induction s as [|c s IH]; simpl; [discriminate|].
  destruct (Ascii.eqb c sep) eqn:Hc; simpl.
  - apply Ascii.eqb_eq in Hc. subst c. intros _.
    destruct (Py.contains sep s) eqn:Hs.
    + destruct (IH eq_refl) as (pre & leaf & -> & Hleaf & Hlast).
      exists (String sep pre), leaf. repeat split; auto.
      destruct (Py.split sep _) eqn:Hsp; [|assumption].
      exfalso. eapply split_nonempty; eauto.
    + exists EmptyString, s. rewrite (split_no_sep _ _ Hs). auto.
  - intros Hs. destruct (IH Hs) as (pre & leaf & -> & Hleaf & Hlast).
    exists (String c pre), leaf. repeat split; auto.
    destruct (Py.split sep _) as [|h t] eqn:Hsp.
    { exfalso. eapply split_nonempty; eauto. }
    destruct t as [|h' t].
    + (* a single piece has no separator *)
      apply split_single in Hsp. congruence.
    + exact Hlast.
Qed.

(** ** Label resolution *)

Lemma scan_label_none (k : list KnowledgeEntry) (syncon : Z) :
  Forall (fun ent => ent_syncon ent <> syncon) k -> scan_label k syncon = "".
Proof.
  induction 1 as [|ent k Hent _ IH]; simpl; [reflexivity|].
  destruct (Z.eqb_spec (ent_syncon ent) syncon); [contradiction | exact IH].
Qed.

Lemma scan_label_first (before after : list KnowledgeEntry)
    (ent : KnowledgeEntry) (syncon : Z) :
  Forall (fun e => ent_syncon e <> syncon) before ->
  ent_syncon ent = syncon ->
  scan_label (before ++ ent :: after) syncon = ent_label ent.
Proof.
  intros Hb He. induction Hb as [|e k Hne _ IH]; simpl.
  - rewrite He, Z.eqb_refl. reflexivity.
  - destruct (Z.eqb_spec (ent_syncon e) syncon); [contradiction | exact IH].
Qed.

Lemma get_label_leaf (doc : Document) (syncon : Z) (k : list KnowledgeEntry) :
  knowledge_k doc = Some k ->
  exists leaf, _get_label doc syncon = Return leaf
               /\ leaf_of (scan_label k syncon) leaf.
Proof.
  intros Hk. unfold _get_label, leaf_of. rewrite Hk.
  destruct (Py.contains "." (scan_label k syncon)) eqn:Hc.
  - assert (Ht : truthy (scan_label k syncon) = true).
    { destruct (scan_label k syncon); [discriminate | reflexivity]. }
    rewrite Ht. simpl.
    destruct (split_last_sep _ _ Hc) as (pre & leaf & Heq & Hleaf & Hlast).
    exists leaf. split; [|eauto].
    rewrite (list_getitem_last _ EmptyString) by apply split_nonempty.
    congruence.
  - rewrite andb_false_r. eauto.
Qed.

(** [_get_label] never raises. *)
Lemma get_label_returns (doc : Document) (syncon : Z) :
  returns (_get_label doc syncon).
Proof.
  destruct (knowledge_k doc) as [k|] eqn:Hk.
  - destruct (get_label_leaf doc syncon k Hk) as (leaf & H & _). exists leaf; auto.
  - unfold _get_label. rewrite Hk. exists ""; auto.
Qed.

(** C9.  [_get_label] returns the empty string when the document has no
    knowledge set or the set has no entry of the target syncon; otherwise
    it takes the label of the first entry of that syncon and returns it
    whole when it has no [.], and what follows its last [.] when it has
    one.  For the target 42 and a first matching entry labelled
    [foo.bar.baz] the result is [baz]. *)
Theorem get_label_first_match_leaf (doc : Document) (syncon : Z) :
  (knowledge_k doc = None -> _get_label doc syncon = Return "")
  /\ (forall k, knowledge_k doc = Some k ->
        Forall (fun ent => ent_syncon ent <> syncon) k ->
        _get_label doc syncon = Return "")
  /\ (forall before ent after,
        knowledge_k doc = Some (before ++ ent :: after) ->
        Forall (fun e => ent_syncon e <> syncon) before ->
        ent_syncon ent = syncon ->
        exists leaf, _get_label doc syncon = Return leaf
                     /\ leaf_of (ent_label ent) leaf)
  /\ (forall before after,
        knowledge_k doc = Some (before ++ mkEntry 42 "foo.bar.baz" :: after) ->
        Forall (fun e => ent_syncon e <> 42) before ->
        _get_label doc 42 = Return "baz").
Proof.
  repeat split.
  - intros Hk. unfold _get_label. rewrite Hk. reflexivity.
  - intros k Hk Hno. unfold _get_label. rewrite Hk, scan_label_none by assumption.
    reflexivity.
  - intros before ent after Hk Hb He.
    destruct (get_label_leaf doc syncon _ Hk) as (leaf & Hl & Hleaf).
    rewrite scan_label_first in Hleaf by assumption. eauto.
  - intros before after Hk Hb. unfold _get_label.
    rewrite Hk, scan_label_first by (assumption || reflexivity). reflexivity.
Qed.

Lemma get_label_first_match_leaf_witness :
  _get_label Sample.foo 42 = Return "baz"
  /\ _get_label Sample.foo 7 = Return ""
  /\ exists leaf, _get_label Sample.cats 100 = Return leaf
                  /\ leaf_of "animal.cat" leaf.
Proof.
  split; [|split].
  - apply (get_label_first_match_leaf Sample.foo 42) with (before := []) (after := []);
      [reflexivity | constructor].
  - apply (get_label_first_match_leaf Sample.foo 7) with (k := [mkEntry 42 "foo.bar.baz"]);
      [reflexivity | repeat constructor; simpl; lia].
  - apply (get_label_first_match_leaf Sample.cats 100)
      with (before := []) (ent := mkEntry 100 "animal.cat") (after := []);
      [reflexivity | constructor | reflexivity].
Defined.

(** With the target [-1] the knowledge set is scanned like for any other
    target: an entry of concept id [-1] is found and its label returned. *)
Lemma get_label_minus_one_match (doc : Document)
    (before after : list KnowledgeEntry) (ent : KnowledgeEntry) :
  knowledge_k doc = Some (before ++ ent :: after) ->
  Forall (fun e => ent_syncon e <> -1) before ->
  ent_syncon ent = -1 ->
  exists leaf, _get_label doc (-1) = Return leaf /\ leaf_of (ent_label ent) leaf.
Proof.
  intros Hk Hb He.
  destruct (get_label_leaf doc (-1) _ Hk) as (leaf & Hl & Hleaf).
  rewrite scan_label_first in Hleaf by assumption. eauto.
Qed.

(** C4, on the code.  [_get_label] has no test of the syncon [-1]: on a
    knowledge set with an entry of concept id [-1] it returns the label of
    that entry, not the empty string, and the record that [nlpy_features]
    builds for a token without syncon has the syncon [-1], the ancestor
    [-1] and the label [none]. *)
Theorem label_of_minus_one_is_resolved :
  _get_label Sample.minus_one (-1) = Return "none"
  /\ _get_label Sample.minus_one (-1) <> Return ""
  /\ fst (_get_ancestor (-1) Sample.eai Sample.w0) = Return (-1)
  /\ fst (nlpy_features [["it"]] [Sample.minus_one_stop] Sample.eai Sample.w0)
     = Return [[ {| word := "it"; pos := "PRO"; syncon := -1; ancestor := -1;
                    dep := "nsubj"; label := "none";
                    typeclass := Some ["PRO"] |} ]].
Proof. repeat split; try reflexivity. discriminate. Qed.

(** ** Ancestor resolution *)

(** C8.  For the syncon [-1], [_get_ancestor] returns [-1] and leaves the
    world as it is: no call reaches the client.  For any other syncon it
    makes one call, [linked_syncons] with the link [supernomen/subnomen],
    the direction [from], the level 1, the offset 0 and the limit 1, and
    returns [-1] when the answer has [max_records = 0], otherwise the first
    syncon of the answer's list. *)
Theorem get_ancestor_one_lookup {S} (eai : Expertai S) (w : World S) :
  _get_ancestor (-1) eai w = (Return (-1), w)
  /\ forall syncon, syncon <> -1 ->
       let params := mkParams syncon "supernomen/subnomen" "from" 1 in
       let answer := linked_syncons eai params 0 1 (svc w) in
       let w' := mkWorld (snd answer)
                         (calls w ++ [CallLinkedSyncons params 0 1])
                         (stdout w) in
       match fst answer with
       | Raise e => _get_ancestor syncon eai w = (Raise e, w')
       | Return ancestor =>
           (max_records ancestor = 0 ->
            _get_ancestor syncon eai w = (Return (-1), w'))
           /\ (max_records ancestor <> 0 ->
               forall first rest, syncon_list ancestor = first :: rest ->
               _get_ancestor syncon eai w = (Return first, w'))
           /\ (max_records ancestor <> 0 -> syncon_list ancestor = [] ->
               _get_ancestor syncon eai w = (Raise IndexError, w'))
       end.
Proof.
  split; [reflexivity|].
  intros syncon Hs. cbv zeta. unfold _get_ancestor.
  destruct (Z.eqb_spec syncon (-1)) as [|_]; [contradiction|].
  unfold bind, eai_linked_syncons.
  destruct (linked_syncons eai _ 0 1 (svc w)) as [[ancestor|e] s]; simpl;
    [|reflexivity].
  destruct (Z.eqb_spec (max_records ancestor) 0) as [H0|H0].
  - split; [reflexivity|]. split; intros; contradiction.
  - split; [intros; contradiction|].
    split; [intros _ first rest Hl | intros _ Hl];
      unfold lift; rewrite Hl; reflexivity.
Qed.

Lemma get_ancestor_one_lookup_witness :
  _get_ancestor 100 Sample.eai Sample.w0
  = (Return 101,
     mkWorld tt [CallLinkedSyncons (mkParams 100 "supernomen/subnomen" "from" 1) 0 1] []).
Proof.
  destruct (get_ancestor_one_lookup Sample.eai Sample.w0) as [_ H].
  specialize (H 100 ltac:(lia)). simpl in H.
  destruct H as (_ & H & _).
  apply (H ltac:(lia) 101 [] eq_refl).
Defined.

(** ** Safe-mode analysis *)

Lemma analyses_length {S} (eai : Expertai S) (texts : list string) (s : S) :
  length (fst (analyses eai texts s)) = length texts.
Proof.
  revert s; induction texts as [|t ts IH]; intros s; simpl; [reflexivity|].
  destruct (analyze eai t analysis_features s) as [r s'].
  specialize (IH s'). destruct (analyses eai ts s') as [rs s'']. simpl in *.
  congruence.
Qed.

Lemma safe_loop_outcomes {S} (eai : Expertai S) (raw : list (list string)) :
  forall (i : Z) (docs : list Document) (errors : list Z) (w : World S),
    let texts := texts_of raw in
    let out := analyses eai texts (svc w) in
    tokens_to_docs_safe_loop eai (enumerate_from i raw) docs errors w
    = (Return (docs ++ analysed (fst out), errors ++ failed_from i (fst out)),
       mkWorld (snd out)
               (calls w ++ map (fun text => CallAnalyze text analysis_features) texts)
               (stdout w)).
Proof.
  induction raw as [|sent raw IH]; intros i docs errors w; cbv zeta.
  - simpl. rewrite !app_nil_r. destruct w; reflexivity.
  - simpl. unfold bind at 1. unfold try_except, bind at 1, eai_analyze.
    destruct (analyze eai (Py.join " " sent) analysis_features (svc w))
      as [[doc|e] s'] eqn:Ha; simpl.
    + rewrite IH. simpl.
      destruct (analyses eai (texts_of raw) s') as [rs s'']. simpl.
      rewrite <- !app_assoc. reflexivity.
    + rewrite IH. simpl.
      destruct (analyses eai (texts_of raw) s') as [rs s'']. simpl.
      rewrite <- !app_assoc. reflexivity.
Qed.

Lemma failed_from_spec (outcomes : list (result Document)) :
  forall i j, In j (failed_from i outcomes) <->
              i <= j /\ exists e, nth_error outcomes (Z.to_nat (j - i)) = Some (Raise e).
Proof.
  induction outcomes as [|[doc|e] outs IH]; intros i j; simpl.
  - split; [tauto|]. intros [_ [e He]]. destruct (Z.to_nat (j - i)); discriminate.
  - rewrite IH. split.
    + intros [Hij [e He]]. split; [lia|]. exists e.
      replace (Z.to_nat (j - i)) with (Datatypes.S (Z.to_nat (j - (i + 1)))) by lia.
      exact He.
    + intros [Hij [e He]].
      destruct (Z.to_nat (j - i)) as [|n] eqn:Hn; [discriminate|].
      split; [lia|]. exists e.
      replace (Z.to_nat (j - (i + 1))) with n by lia. exact He.
  - rewrite IH. split.
    + intros [<- | [Hij [e' He]]].
      * split; [lia|]. exists e. rewrite Z.sub_diag. reflexivity.
      * split; [lia|]. exists e'.
        replace (Z.to_nat (j - i)) with (Datatypes.S (Z.to_nat (j - (i + 1)))) by lia.
        exact He.
    + intros [Hij [e' He]].
      destruct (Z.to_nat (j - i)) as [|n] eqn:Hn.
      * left. lia.
      * right. split; [lia|]. exists e'.
        replace (Z.to_nat (j - (i + 1))) with n by lia. exact He.
Qed.

Lemma failed_from_sorted (outcomes : list (result Document)) :
  forall i, StronglySorted Z.lt (failed_from i outcomes).
Proof.
  induction outcomes as [|[doc|e] outs IH]; intros i; simpl.
  - constructor.
  - apply IH.
  - constructor; [apply IH|].
    apply List.Forall_forall. intros j Hj. apply failed_from_spec in Hj. lia.
Qed.

Lemma analysed_failed_length (outcomes : list (result Document)) (i : Z) :
  (length (analysed outcomes) + length (failed_from i outcomes))%nat
  = length outcomes.
Proof.
  revert i; induction outcomes as [|[doc|e] outs IH]; intros i; simpl;
    [reflexivity | |]; rewrite <- (IH (i + 1)); lia.
Qed.

Lemma sorted_singleton (errors : list Z) (x : Z) :
  StronglySorted Z.lt errors -> (forall i, In i errors <-> i = x) ->
  errors = [x].
Proof.
  intros Hs Hin. destruct errors as [|a l].
  - exfalso. apply (proj2 (Hin x) eq_refl).
  - assert (a = x) by (apply Hin; left; reflexivity). subst a.
    destruct l as [|b l]; [reflexivity|]. exfalso.
    assert (b = x) by (apply Hin; right; left; reflexivity). subst b.
    inversion Hs as [|? ? _ Hall]; subst. inversion Hall; subst. lia.
Qed.

(** C6.  [tokens_to_docs_safe] returns, whatever the analyses do: every
    sentence is submitted, in order, also after a failure; the documents
    returned are those of the analyses that returned, in the order of the
    sentences; the errors returned are the indices of the sentences whose
    analysis raised, in increasing order; their number is printed.  Over 5
    sentences of which only the one of index 2 raises, 4 documents and the
    errors [[2]] are returned. *)
Theorem tokens_to_docs_safe_isolates {S} (raw : list (list string))
    (eai : Expertai S) (w : World S) :
  let outcomes := fst (analyses eai (texts_of raw) (svc w)) in
  exists docs errors w',
    tokens_to_docs_safe raw eai w = (Return (docs, errors), w')
    /\ docs = analysed outcomes
    /\ (forall i, In i errors <-> raised_at outcomes i)
    /\ StronglySorted Z.lt errors
    /\ calls w' = calls w ++ map (fun text => CallAnalyze text analysis_features)
                                 (texts_of raw)
    /\ stdout w' = stdout w ++ [[PyInt (Z.of_nat (length errors)); PyStr "errors"]]
    /\ (length raw = 5%nat -> (forall i, raised_at outcomes i <-> i = 2) ->
        length docs = 4%nat /\ errors = [2]).
Proof.
  cbv zeta. unfold tokens_to_docs_safe, enumerate, bind.
  rewrite safe_loop_outcomes. simpl.
  set (outcomes := fst (analyses eai (texts_of raw) (svc w))).
  assert (Hin : forall i, In i (failed_from 0 outcomes) <-> raised_at outcomes i).
  { intros i. rewrite failed_from_spec, Z.sub_0_r. reflexivity. }
  do 3 eexists. split; [reflexivity|]. simpl.
  split; [reflexivity|]. split; [exact Hin|].
  split; [apply failed_from_sorted|]. split; [reflexivity|].
  split; [reflexivity|]. intros Hlen Hone. split.
  - assert (He : failed_from 0 outcomes = [2]).
    { apply sorted_singleton; [apply failed_from_sorted|].
      intros i. rewrite Hin. apply Hone. }
    pose proof (analysed_failed_length outcomes 0) as Hl.
    unfold outcomes in Hl at 3. rewrite analyses_length in Hl.
    unfold texts_of in Hl. rewrite length_map, Hlen, He in Hl. simpl in Hl. lia.
  - apply sorted_singleton; [apply failed_from_sorted|].
    intros i. rewrite Hin. apply Hone.
Qed.

Lemma tokens_to_docs_safe_isolates_witness :
  exists docs w',
    tokens_to_docs_safe [["a"]; ["b"]; ["bad"]; ["c"; "d"]; ["e"]] Sample.eai Sample.w0
    = (Return (docs, [2]), w')
    /\ length docs = 4%nat.
Proof.
  destruct (tokens_to_docs_safe_isolates
              [["a"]; ["b"]; ["bad"]; ["c"; "d"]; ["e"]] Sample.eai Sample.w0)
    as (docs & errors & w' & Hrun & _ & _ & _ & _ & _ & H5).
  destruct H5 as [Hlen Herr].
  - reflexivity.
  - intros i. unfold raised_at. simpl. split.
    + intros [Hi [e He]].
      destruct (Z.to_nat i) as [|[|[|[|[|n]]]]] eqn:Hn; simpl in He;
        try discriminate; try lia.
      destruct n; discriminate.
    + intros ->. split; [lia|]. exists (ServiceError "analyze"). reflexivity.
  - exists docs, w'. rewrite <- Herr. split; assumption.
Defined.

(** ** The monad *)

Lemma bind_Return {S A B} (c : M S A) (k : A -> M S B) (w w' : World S) (b : B) :
  bind c k w = (Return b, w') ->
  exists a w1, c w = (Return a, w1) /\ k a w1 = (Return b, w').
Proof.
  unfold bind. destruct (c w) as [[a|e] w1]; [eauto | discriminate].
Qed.

Lemma lift_Return {S A} (r : result A) (w w' : World S) (a : A) :
  lift r w = (Return a, w') -> r = Return a /\ w' = w.
Proof. unfold lift. intros [= -> ->]. auto. Qed.

Lemma ret_Return {S A} (x a : A) (w w' : World S) :
  ret x w = (Return a, w') -> a = x /\ w' = w.
Proof. unfold ret. intros [= -> ->]. auto. Qed.

(** ** The choice among several candidates *)

Lemma insert_reverse_perm {A} (key : A -> Z) (x : A) (l : list A) :
  Permutation (insert_reverse key x l) (x :: l).
Proof.
  induction l as [|y l IH]; simpl; [reflexivity|].
  destruct (key y <=? key x); [reflexivity|].
  rewrite IH. apply perm_swap.
Qed.

Lemma sort_reverse_perm {A} (key : A -> Z) (l : list A) :
  Permutation (sort_reverse key l) l.
Proof.
  induction l as [|x l IH]; simpl; [reflexivity|].
  rewrite insert_reverse_perm, IH. reflexivity.
Qed.

Lemma insert_reverse_sorted {A} (key : A -> Z) (x : A) (l : list A) :
  StronglySorted (fun a b => key b <= key a) l ->
  StronglySorted (fun a b => key b <= key a) (insert_reverse key x l).
Proof.
  induction 1 as [|y l Hs IH Hall]; simpl.
  - repeat constructor.
  - destruct (Z.leb_spec (key y) (key x)).
    + constructor; [constructor; assumption|].
      constructor; [assumption|].
      eapply List.Forall_impl; [|exact Hall]. simpl. intros; lia.
    + constructor; [assumption|].
      rewrite insert_reverse_perm. constructor; [lia | assumption].
Qed.

Lemma sort_reverse_sorted {A} (key : A -> Z) (l : list A) :
  StronglySorted (fun a b => key b <= key a) (sort_reverse key l).
Proof.
  induction l as [|x l IH]; simpl; [constructor|].
  apply insert_reverse_sorted, IH.
Qed.

(** The sorted list starts with the first of the elements of largest key. *)
Lemma sort_reverse_head {A} (key : A -> Z) (l : list A) :
  l <> [] ->
  exists t rest, sort_reverse key l = t :: rest /\ first_largest key l t.
Proof.
  induction l as [|x l IH]; [congruence|]. intros _.
  destruct l as [|y l].
  - exists x, []. split; [reflexivity|].
    exists [], []. repeat split; intros u [].
  - destruct IH as (t & rest & Hsort & before & after & Hl & Hb & Ha);
      [discriminate|].
    change (sort_reverse key (x :: y :: l))
      with (insert_reverse key x (sort_reverse key (y :: l))).
    rewrite Hsort. simpl.
    destruct (Z.leb_spec (key t) (key x)) as [Hle|Hlt].
    + exists x, (t :: rest). split; [reflexivity|].
      exists [], (y :: l). split; [reflexivity|]. split; [intros u []|].
      intros u Hu. rewrite Hl in Hu.
      apply in_app_or in Hu. destruct Hu as [Hu | [<- | Hu]].
      * apply Hb in Hu. lia.
      * assumption.
      * apply Ha in Hu. lia.
    + exists t, (insert_reverse key x rest). split; [reflexivity|].
      exists (x :: before), after. rewrite Hl. split; [reflexivity|].
      split; [|assumption].
      intros u [<- | Hu]; [assumption | apply Hb; assumption].
Qed.

(** The record is read from the first of the candidates of largest
    syncon. *)
Lemma ranked_head (possible_tokens : list Token) :
  possible_tokens <> [] ->
  exists t, Py.list_getitem (ranked possible_tokens) 0 = Return t
            /\ first_largest t_syncon possible_tokens t.
Proof.
  intros Hne. unfold ranked.
  destruct (Z.of_nat (length possible_tokens) >? 1) eqn:Hlen.
  - destruct (sort_reverse_head t_syncon possible_tokens Hne)
      as (t & rest & -> & Hfirst).
    exists t. split; [reflexivity | assumption].
  - rewrite Z.gtb_ltb in Hlen. apply Z.ltb_ge in Hlen.
    destruct possible_tokens as [|t [|u l]]; [congruence | | simpl length in Hlen; lia].
    exists t. split; [reflexivity|].
    exists [], []. repeat split; intros u [].
Qed.

(** ** One step of the alignment *)

(** What a step that returns has done. *)
Lemma align_token_Return {S} (docs : list Document) (sent_idx : Z)
    (eai : Expertai S) (token : string) (seek : Z) (w w' : World S)
    (new_token : AttributeRecord) (seek' : Z) :
  align_token docs sent_idx eai token seek w = (Return (new_token, seek'), w') ->
  exists doc,
    Py.list_getitem docs sent_idx = Return doc
    /\ skip_spaces (content doc)
                   (Py.find (content doc) token seek + Py.len token)
       = Return seek'
    /\ ((candidates doc token seek = [] /\ new_token = _voidtoken)
        \/ exists t anc lab,
             Py.list_getitem (ranked (candidates doc token seek)) 0 = Return t
             /\ first_largest t_syncon (candidates doc token seek) t
             /\ _get_ancestor (t_syncon t) eai w = (Return anc, w')
             /\ _get_label doc (t_syncon t) = Return lab
             /\ new_token = {| word := token;
                               pos := t_pos t;
                               syncon := t_syncon t;
                               ancestor := anc;
                               dep := t_dependency_label t;
                               label := lab;
                               typeclass := Some (Py.split "." (t_typeclass t)) |}).
Proof.
  unfold align_token. intros H.
  apply bind_Return in H. destruct H as (doc & w1 & Hdoc & H).
  apply lift_Return in Hdoc. destruct Hdoc as [Hdoc ->].
  exists doc. split; [assumption|].
  fold (candidates doc token seek) in H.
  apply bind_Return in H. destruct H as (rec & w2 & Hrec & H).
  apply bind_Return in H. destruct H as (sk & w3 & Hskip & H).
  apply lift_Return in Hskip. destruct Hskip as [Hskip ->].
  apply ret_Return in H. destruct H as [[= -> ->] ->].
  split; [assumption|].
  destruct (candidates doc token seek) as [|c cs] eqn:Hc.
  - left. split; [reflexivity|].
    apply bind_Return in Hrec. destruct Hrec as (u & w3 & _ & Hrec).
    apply ret_Return in Hrec. tauto.
  - right. rewrite <- Hc in *.
    apply bind_Return in Hrec. destruct Hrec as (t & w3 & Ht & Hrec).
    apply lift_Return in Ht. destruct Ht as [Ht ->].
    apply bind_Return in Hrec. destruct Hrec as (anc & w3 & Hanc & Hrec).
    apply bind_Return in Hrec. destruct Hrec as (lab & w4 & Hlab & Hrec).
    apply lift_Return in Hlab. destruct Hlab as [Hlab ->].
    apply ret_Return in Hrec. destruct Hrec as [-> ->].
    exists t, anc, lab. repeat split; try assumption.
    destruct (ranked_head (candidates doc token seek)) as (t' & Ht' & Hfirst);
      [rewrite Hc; discriminate|].
    congruence.
Qed.

(** A step that has a candidate, written out: the record is read from the
    head of the ranked candidates; an exception of the lookup or of the
    cursor loop ends the step, and nothing else does. *)
Lemma align_token_matched {S} (docs : list Document) (sent_idx : Z)
    (eai : Expertai S) (token : string) (seek : Z) (w : World S)
    (doc : Document) :
  Py.list_getitem docs sent_idx = Return doc ->
  candidates doc token seek <> [] ->
  exists t lab,
    first_largest t_syncon (candidates doc token seek) t
    /\ Py.list_getitem (ranked (candidates doc token seek)) 0 = Return t
    /\ _get_label doc (t_syncon t) = Return lab
    /\ align_token docs sent_idx eai token seek w
       = match _get_ancestor (t_syncon t) eai w with
         | (Raise e, w1) => (Raise e, w1)
         | (Return anc, w1) =>
             match skip_spaces (content doc)
                               (Py.find (content doc) token seek + Py.len token) with
             | Raise e => (Raise e, w1)
             | Return seek' => (Return (record_from token t anc lab, seek'), w1)
             end
         end.
Proof.
  intros Hdoc Hne.
  destruct (ranked_head _ Hne) as (t & Ht & Hfirst).
  destruct (get_label_returns doc (t_syncon t)) as [lab Hlab].
  exists t, lab. split; [assumption|]. split; [assumption|]. split; [assumption|].
  unfold align_token. unfold bind at 1. unfold lift at 1. rewrite Hdoc.
  fold (candidates doc token seek).
  destruct (candidates doc token seek) as [|c cs] eqn:Hc; [congruence|].
  rewrite <- Hc in Ht |- *. unfold bind at 1. unfold bind at 1. unfold lift at 1.
  rewrite Ht. unfold bind at 1.
  destruct (_get_ancestor (t_syncon t) eai w) as [[anc|e] w1]; [|reflexivity].
  unfold bind, lift, ret. rewrite Hlab.
  destruct (skip_spaces _ _); reflexivity.
Qed.

(** C7.  When more than one expert.ai token is a candidate for a raw
    token, the step reads the record from the candidate of largest syncon
    and, among several of that syncon, from the one that comes first in the
    document's token list: it returns that record when the ancestor lookup
    and the cursor loop return, and otherwise ends with their exception. *)
Theorem align_token_selects_largest {S} (docs : list Document) (sent_idx : Z)
    (eai : Expertai S) (token : string) (seek : Z) (w : World S)
    (doc : Document) :
  Py.list_getitem docs sent_idx = Return doc ->
  (1 < length (candidates doc token seek))%nat ->
  exists t lab,
    first_largest t_syncon (candidates doc token seek) t
    /\ Py.list_getitem (ranked (candidates doc token seek)) 0 = Return t
    /\ _get_label doc (t_syncon t) = Return lab
    /\ align_token docs sent_idx eai token seek w
       = match _get_ancestor (t_syncon t) eai w with
         | (Raise e, w1) => (Raise e, w1)
         | (Return anc, w1) =>
             match skip_spaces (content doc)
                               (Py.find (content doc) token seek + Py.len token) with
             | Raise e => (Raise e, w1)
             | Return seek' => (Return (record_from token t anc lab, seek'), w1)
             end
         end.
Proof.
  intros Hdoc Hlen. apply align_token_matched; [assumption|].
  intros Hnil. rewrite Hnil in Hlen. simpl in Hlen. lia.
Qed.

Lemma align_token_selects_largest_witness :
  exists t w',
    In t (candidates Sample.new_york "New" 0)
    /\ t_pos t = "NPR" /\ t_syncon t = 500
    /\ align_token [Sample.new_york] 0 Sample.eai "New" 0 Sample.w0
       = (Return (record_from "New" t 501 "", 4), w').
Proof.
  destruct (align_token_selects_largest [Sample.new_york] 0 Sample.eai "New" 0
              Sample.w0 Sample.new_york)
    as (t & lab & Hfirst & Hhead & Hlab & Hrun);
    [reflexivity | vm_compute; lia |].
  vm_compute in Hhead. injection Hhead as <-.
  vm_compute in Hlab. injection Hlab as <-.
  eexists. eexists. split; [|split; [|split]]; [| | |exact Hrun].
  - right. left. reflexivity.
  - reflexivity.
  - reflexivity.
Defined.

(** The step on that input: of the three candidates [(0,3)] of syncon 30,
    [(0,8)] of syncon 500 and [(0,3)] of syncon 500, the second is read. *)
Example align_token_new_york :
  fst (align_token [Sample.new_york] 0 Sample.eai "New" 0 Sample.w0)
  = Return ({| word := "New"; pos := "NPR"; syncon := 500; ancestor := 501;
               dep := "root"; label := "";
               typeclass := Some ["NPR"; "GEO"] |}, 4).
Proof. reflexivity. Qed.

(** ** Subscripts on lists *)

Lemma list_getitem_Return_In {A} (l : list A) (i : Z) (x : A) :
  Py.list_getitem l i = Return x -> In x l.
Proof.
  unfold Py.list_getitem. destruct (_ <? 0); [discriminate|].
  destruct (nth_error l _) eqn:Hn; [|discriminate].
  intros [= <-]. eapply nth_error_In; eauto.
Qed.

Lemma list_getitem_in_range {A} (l : list A) (i : Z) :
  - Z.of_nat (length l) <= i < Z.of_nat (length l) ->
  exists x, Py.list_getitem l i = Return x
            /\ nth_error l (Z.to_nat (Py.norm_index (Z.of_nat (length l)) i)) = Some x.
Proof.
  intros Hi. unfold Py.list_getitem.
  set (j := Py.norm_index (Z.of_nat (length l)) i).
  assert (Hj : 0 <= j < Z.of_nat (length l)).
  { unfold j, Py.norm_index. destruct (Z.ltb_spec i 0); lia. }
  destruct (Z.ltb_spec j 0); [lia|].
  destruct (nth_error l (Z.to_nat j)) as [x|] eqn:Hn; [eauto|].
  apply nth_error_None in Hn. lia.
Qed.

Lemma list_getitem_nat {A} (l : list A) (i : nat) (x : A) :
  nth_error l i = Some x -> Py.list_getitem l (Z.of_nat i) = Return x.
Proof.
  intros Hn. unfold Py.list_getitem, Py.norm_index.
  destruct (Z.ltb_spec (Z.of_nat i) 0); [lia|].
  destruct (Z.ltb_spec (Z.of_nat i) 0); [lia|].
  rewrite Nat2Z.id, Hn. reflexivity.
Qed.

Lemma list_getitem_Raise {A} (l : list A) (i : Z) (e : exn) :
  Py.list_getitem l i = Raise e -> e = IndexError.
Proof.
  unfold Py.list_getitem. destruct (_ <? 0); [congruence|].
  destruct (nth_error l _); congruence.
Qed.

(** ** The construction of the tuple *)

Lemma tuple_of_Return {A B} (f : A -> result B) (l : list A) (ys : list B) :
  tuple_of f l = Return ys <-> Forall2 (fun x y => f x = Return y) l ys.
Proof.
  revert ys; induction l as [|x l IH]; intros ys; simpl.
  - split; [intros [= <-]; constructor | intros H; inversion H; reflexivity].
  - split.
    + destruct (f x) as [y|e] eqn:Hx; simpl; [|discriminate].
      destruct (tuple_of f l) as [ys'|e] eqn:Hl; simpl; [|discriminate].
      intros [= <-]. constructor; [assumption | apply IH; reflexivity].
    + intros H. inversion H as [|? y ? ys' Hx Hrest]; subst.
      rewrite Hx. simpl. apply IH in Hrest. rewrite Hrest. reflexivity.
Qed.

Lemma tuple_of_Raise {A B} (f : A -> result B) (l : list A) (e : exn) :
  tuple_of f l = Raise e -> exists x, In x l /\ f x = Raise e.
Proof.
  induction l as [|x l IH]; simpl; [discriminate|].
  destruct (f x) as [y|e'] eqn:Hx; simpl.
  - destruct (tuple_of f l) as [ys|e'']; simpl; [discriminate|].
    intros [= ->]. destruct IH as (x' & Hin & Hx'); eauto.
  - intros [= ->]. eauto.
Qed.

Lemma tuple_of_total {A B} (f : A -> result B) (l : list A) :
  (forall x, In x l -> returns (f x)) -> returns (tuple_of f l).
Proof.
  intros H. destruct (tuple_of f l) as [ys|e] eqn:Ht; [exists ys; reflexivity|].
  apply tuple_of_Raise in Ht. destruct Ht as (x & Hin & Hx).
  destruct (H x Hin) as [y Hy]. congruence.
Qed.

Lemma range_length (n : nat) : length (range n) = n.
Proof. unfold range. rewrite length_map, length_seq. reflexivity. Qed.

Lemma range_nth (n i : nat) :
  (i < n)%nat -> nth_error (range n) i = Some (Z.of_nat i).
Proof.
  intros H. unfold range. rewrite nth_error_map, nth_error_seq.
  destruct (Nat.ltb_spec i n); [reflexivity | lia].
Qed.

Lemma range_In (n : nat) (x : Z) : In x (range n) <-> 0 <= x < Z.of_nat n.
Proof.
  unfold range. rewrite in_map_iff. split.
  - intros (i & <- & Hi). apply in_seq in Hi. lia.
  - intros Hx. exists (Z.to_nat x). split; [lia|]. apply in_seq. lia.
Qed.

(** ** Feature dictionaries *)

Lemma lookup_update_ne (items : list (string * pyval)) (k : string) :
  forall d : FeatureMap,
    Forall (fun kv => kv.1 <> k) items -> update d items !! k = d !! k.
Proof.
  unfold update. induction items as [|[k' v] items IH]; intros d H; simpl;
    [reflexivity|].
  inversion H as [|? ? Hne Hrest]; subst. rewrite IH by assumption.
  apply lookup_insert_ne. exact Hne.
Qed.

(** Keys that start with different characters differ. *)
Ltac other_key Hk := intros <-; vm_compute in Hk; discriminate Hk.

(** A key of which [Hk] says what it starts with is in none of the blocks
    that start otherwise. *)
Ltac absent_key Hk :=
  repeat first
    [ rewrite lookup_insert_ne by other_key Hk
    | rewrite lookup_update_ne by (repeat constructor; simpl; other_key Hk) ];
  apply lookup_empty.

Lemma getitem_complete (sentence : list AttributeRecord) (j : Z) :
  Forall complete sentence ->
  - Z.of_nat (length sentence) <= j < Z.of_nat (length sentence) ->
  exists r tc, Py.list_getitem sentence j = Return r
               /\ typeclass r = Some tc /\ get_typeclass r = Return tc.
Proof.
  intros Hc Hj. destruct (list_getitem_in_range sentence j Hj) as (r & Hr & _).
  pose proof (list_getitem_Return_In _ _ _ Hr) as Hin.
  rewrite List.Forall_forall in Hc. specialize (Hc r Hin). unfold complete in Hc.
  unfold get_typeclass. destruct (typeclass r) as [tc|] eqn:Htc; [|congruence].
  exists r, tc. rewrite Htc. auto.
Qed.

(** The dictionary of a token of a sentence of complete records: the left
    block is [BOS] for the first token and the features of [sentence[idx-1]]
    for the others; the right block is [EOS] for the last token and, for the
    others, again the features of [sentence[idx-1]]. *)
Lemma word_features_blocks (sentence : list AttributeRecord) (idx : Z) :
  Forall complete sentence ->
  0 <= idx < Z.of_nat (length sentence) ->
  exists f,
    _nlpy_word_features sentence idx = Return f
    /\ (if idx >? 0
        then f !! "BOS" = None
             /\ exists r, Py.list_getitem sentence (idx - 1) = Return r
                          /\ neighbour_values "-1:" f = attributes_of r
        else f !! "BOS" = Some (PyBool true) /\ no_key_with_prefix "-1:" f)
    /\ (if idx <? Z.of_nat (length sentence) - 1
        then f !! "EOS" = None
             /\ exists r, Py.list_getitem sentence (idx - 1) = Return r
                          /\ neighbour_values "+1:" f = attributes_of r
        else f !! "EOS" = Some (PyBool true) /\ no_key_with_prefix "+1:" f).
Proof.
  intros Hc Hidx. unfold _nlpy_word_features.
  destruct (getitem_complete sentence idx Hc) as (token & tc & Ht & Htc & Hgt);
    [lia|].
  rewrite Ht. cbn [result_bind]. rewrite Hgt. cbn [result_bind].
  destruct (getitem_complete sentence (idx - 1) Hc) as (r & tc1 & Hr & Htc1 & Hg);
    [lia|].
  rewrite Hr. cbn [result_bind]. rewrite Hg. cbn [result_bind].
  assert (Hattr : attributes_of r
                  = [ Some (PyStr (Py.lower (word r)));
                      Some (PyBool (Py.istitle (word r)));
                      Some (PyBool (Py.isupper (word r)));
                      Some (PyStr (pos r)); Some (PyStr (dep r));
                      Some (PyStr (label r)); Some (PyList tc1) ]).
  { unfold attributes_of. rewrite Htc1. reflexivity. }
  destruct (idx >? 0) eqn:Hl; destruct (idx <? Z.of_nat (length sentence) - 1) eqn:Hr';
    cbn [result_bind]; eexists; (split; [reflexivity|]); split.
  all: split; [reflexivity|].
  all: first
    [ exists r; split; [reflexivity|]; rewrite Hattr; reflexivity
    | intros k Hk; absent_key Hk ].
Qed.

Lemma Forall2_nth_error_r {A B} (P : A -> B -> Prop) (l : list A) (k : list B)
    (i : nat) (y : B) :
  Forall2 P l k -> nth_error k i = Some y ->
  exists x, nth_error l i = Some x /\ P x y.
Proof.
  intros H; revert i; induction H as [|x y' l k Hxy _ IH]; intros [|i] Hi;
    simpl in *; try discriminate.
  - injection Hi as ->. eauto.
  - apply IH. exact Hi.
Qed.

Lemma neighbour_values_keys (pre : string) (f : FeatureMap) (r : AttributeRecord) :
  complete r -> neighbour_values pre f = attributes_of r ->
  has_neighbour_keys pre f.
Proof.
  unfold complete, neighbour_values, attributes_of, has_neighbour_keys.
  intros Hc Hv name Hin. destruct (typeclass r) as [tc|]; [|congruence].
  simpl in Hv. injection Hv as H1 H2 H3 H4 H5 H6 H7.
  simpl in Hin.
  unfold is_Some.
  decompose [or] Hin; subst; try contradiction; eexists; eassumption.
Qed.

(** [nlpy_sentence_features] returns on complete records, one dictionary
    for each index in turn. *)
Lemma sentence_features_complete (sentence : list AttributeRecord) :
  Forall complete sentence ->
  exists maps,
    nlpy_sentence_features sentence = Return maps
    /\ length maps = length sentence
    /\ forall i f, nth_error maps i = Some f ->
                   _nlpy_word_features sentence (Z.of_nat i) = Return f.
Proof.
  intros Hc. unfold nlpy_sentence_features.
  destruct (tuple_of_total (_nlpy_word_features sentence) (range (length sentence)))
    as [maps Hmaps].
  { intros x Hx. apply range_In in Hx.
    destruct (word_features_blocks sentence x Hc Hx) as (f & Hf & _).
    exists f. exact Hf. }
  exists maps. split; [assumption|].
  apply tuple_of_Return in Hmaps.
  pose proof (Forall2_length _ _ _ Hmaps) as Hlen. rewrite range_length in Hlen.
  split; [congruence|].
  intros i f Hi.
  destruct (Forall2_nth_error_r _ _ _ _ _ Hmaps Hi) as (x & Hx & Hf).
  assert (Hlt : (i < length sentence)%nat).
  { rewrite Hlen. apply nth_error_Some. congruence. }
  rewrite range_nth in Hx by assumption. injection Hx as <-. exact Hf.
Qed.

(** The boundary markers.  For a sentence of records that have all
    their keys,
    [nlpy_sentence_features] returns one dictionary for each token.  The
    first has ["BOS"] at [True] and no key that starts with [-1:]; the last
    has ["EOS"] at [True] and no key that starts with [+1:]; a dictionary
    between them has neither ["BOS"] nor ["EOS"] and has every neighbour
    feature under [-1:] and under [+1:]. *)
Theorem sentence_features_boundaries (sentence : list AttributeRecord) :
  Forall complete sentence ->
  exists maps,
    nlpy_sentence_features sentence = Return maps
    /\ length maps = length sentence
    /\ forall i f, nth_error maps i = Some f ->
         (i = 0%nat ->
          f !! "BOS" = Some (PyBool true) /\ no_key_with_prefix "-1:" f)
         /\ (Datatypes.S i = length sentence ->
             f !! "EOS" = Some (PyBool true) /\ no_key_with_prefix "+1:" f)
         /\ ((0 < i)%nat -> (Datatypes.S i < length sentence)%nat ->
             f !! "BOS" = None /\ f !! "EOS" = None
             /\ has_neighbour_keys "-1:" f /\ has_neighbour_keys "+1:" f).
Proof.
  intros Hc.
  destruct (sentence_features_complete sentence Hc) as (maps & Hrun & Hlen & Hnth).
  exists maps. split; [assumption|]. split; [assumption|].
  intros i f Hi.
  assert (Hlt : (i < length sentence)%nat).
  { rewrite <- Hlen. apply nth_error_Some. congruence. }
  apply Hnth in Hi.
  destruct (word_features_blocks sentence (Z.of_nat i) Hc) as (f' & Hf' & Hleft & Hright);
    [lia|].
  rewrite Hi in Hf'. injection Hf' as <-.
  assert (Hin : forall r j, Py.list_getitem sentence j = Return r -> complete r).
  { intros r j Hr. apply list_getitem_Return_In in Hr.
    rewrite List.Forall_forall in Hc. auto. }
  split; [|split].
  - intros ->. exact Hleft.
  - intros Hlast.
    destruct (Z.ltb_spec (Z.of_nat i) (Z.of_nat (length sentence) - 1)); [lia|].
    exact Hright.
  - intros Hpos Hint.
    destruct (Z.gtb_spec (Z.of_nat i) 0); [|lia].
    destruct (Z.ltb_spec (Z.of_nat i) (Z.of_nat (length sentence) - 1)); [|lia].
    destruct Hleft as (Hbos & r & Hr & Hvals).
    destruct Hright as (Heos & r' & Hr' & Hvals').
    split; [assumption|]. split; [assumption|].
    split; (eapply neighbour_values_keys; [|eassumption]; eapply Hin; eassumption).
Qed.

Lemma sentence_features_boundaries_witness :
  exists maps,
    nlpy_sentence_features [Sample.r0; Sample.r1; Sample.r2] = Return maps
    /\ length maps = 3%nat
    /\ forall i f, nth_error maps i = Some f ->
         (i = 0%nat ->
          f !! "BOS" = Some (PyBool true) /\ no_key_with_prefix "-1:" f)
         /\ (Datatypes.S i = 3%nat ->
             f !! "EOS" = Some (PyBool true) /\ no_key_with_prefix "+1:" f)
         /\ ((0 < i)%nat -> (Datatypes.S i < 3)%nat ->
             f !! "BOS" = None /\ f !! "EOS" = None
             /\ has_neighbour_keys "-1:" f /\ has_neighbour_keys "+1:" f).
Proof.
  apply (sentence_features_boundaries [Sample.r0; Sample.r1; Sample.r2]).
  repeat constructor; discriminate.
Defined.

(** C10, on the code.  A sentence with the sentinel record gets no
    dictionaries, and so no boundary markers.  For [cats xyz great], where
    [xyz] has no expert.ai token, the alignment returns a record, the
    sentinel and a record, and the assembly of that sentence raises
    [KeyError: 'typeclass']; for a sentence that ends with the sentinel
    already the dictionary of the first token raises, through
    [sentence[-1]]; for the sentinel alone there is neither ["BOS"] nor
    ["EOS"]. *)
Theorem boundaries_missing_with_sentinel :
  (exists first last,
      fst (nlpy_features [["cats"; "xyz"; "great"]] [Sample.gap] Sample.eai Sample.w0)
      = Return [[first; _voidtoken; last]]
      /\ complete first /\ complete last
      /\ nlpy_sentence_features [first; _voidtoken; last]
         = Raise (KeyError "typeclass"))
  /\ _nlpy_word_features [Sample.r0; _voidtoken] 0 = Raise (KeyError "typeclass")
  /\ nlpy_sentence_features [Sample.r0; _voidtoken] = Raise (KeyError "typeclass")
  /\ nlpy_sentence_features [_voidtoken] = Raise (KeyError "typeclass").
Proof.
  split; [|repeat split; reflexivity].
  do 2 eexists. split; [reflexivity|].
  split; [discriminate|]. split; [discriminate | reflexivity].
Qed.


(** ** The right block *)

(** The right block of a token that has a next token holds the attributes
    of [sentence[idx-1]]: the previous token or, for the first token, the
    last one. *)
Lemma right_block_source (sentence : list AttributeRecord) (idx : Z) :
  Forall complete sentence ->
  0 <= idx < Z.of_nat (length sentence) - 1 ->
  exists f r,
    _nlpy_word_features sentence idx = Return f
    /\ Py.list_getitem sentence (idx - 1) = Return r
    /\ neighbour_values "+1:" f = attributes_of r.
Proof.
  intros Hc Hidx.
  destruct (word_features_blocks sentence idx Hc) as (f & Hf & _ & Hright); [lia|].
  destruct (Z.ltb_spec idx (Z.of_nat (length sentence) - 1)); [|lia].
  destruct Hright as (_ & r & Hr & Hvals). eauto.
Qed.

(** C3, on the code.  In the sentence [Cats are great] the dictionary of
    [are] has under [+1:] the attributes of [Cats], not those of [great],
    and the dictionary of [Cats] has there the attributes of [great], not
    those of [are]. *)
Theorem right_block_reads_previous :
  let sentence := [Sample.r0; Sample.r1; Sample.r2] in
  exists f0 f1,
    _nlpy_word_features sentence 0 = Return f0
    /\ _nlpy_word_features sentence 1 = Return f1
    /\ neighbour_values "+1:" f1 = attributes_of Sample.r0
    /\ neighbour_values "+1:" f1 <> attributes_of Sample.r2
    /\ neighbour_values "+1:" f0 = attributes_of Sample.r2
    /\ neighbour_values "+1:" f0 <> attributes_of Sample.r1.
Proof.
  cbv zeta. do 2 eexists.
  split; [reflexivity|]. split; [reflexivity|].
  split; [reflexivity|]. split; [vm_compute; discriminate|].
  split; [reflexivity|]. vm_compute; discriminate.
Qed.

(** ** Records without ['typeclass'] *)

Lemma word_features_Raise (sentence : list AttributeRecord) (idx : Z) (e : exn) :
  0 <= idx < Z.of_nat (length sentence) ->
  _nlpy_word_features sentence idx = Raise e -> e = KeyError "typeclass".
Proof.
  intros Hidx. unfold _nlpy_word_features.
  destruct (list_getitem_in_range sentence idx) as (token & -> & _); [lia|].
  cbn [result_bind].
  destruct (get_typeclass token) as [tc|e'] eqn:Htc; cbn [result_bind];
    [|unfold get_typeclass in Htc; destruct (typeclass token); congruence].
  destruct (list_getitem_in_range sentence (idx - 1)) as (r & Hr & _); [lia|].
  rewrite Hr. cbn [result_bind].
  destruct (get_typeclass r) as [tc1|e'] eqn:Htc1; cbn [result_bind].
  - destruct (idx >? 0), (idx <? _); cbn [result_bind]; discriminate.
  - assert (e' = KeyError "typeclass").
    { unfold get_typeclass in Htc1. destruct (typeclass r); congruence. }
    subst e'.
    destruct (idx >? 0), (idx <? _); cbn [result_bind]; congruence.
Qed.

Lemma word_features_incomplete (sentence : list AttributeRecord) (i : nat)
    (r : AttributeRecord) :
  nth_error sentence i = Some r -> typeclass r = None ->
  _nlpy_word_features sentence (Z.of_nat i) = Raise (KeyError "typeclass").
Proof.
  intros Hi Hr. unfold _nlpy_word_features.
  rewrite (list_getitem_nat _ _ _ Hi). cbn [result_bind].
  unfold get_typeclass. rewrite Hr. reflexivity.
Qed.

(** A sentence with a record that has no ['typeclass'], as [_voidtoken()]
    is, gets no feature dictionaries: the assembly raises [KeyError]. *)
Lemma sentence_features_incomplete (sentence : list AttributeRecord)
    (r : AttributeRecord) :
  In r sentence -> typeclass r = None ->
  nlpy_sentence_features sentence = Raise (KeyError "typeclass").
Proof.
  intros Hin Hr. apply In_nth_error in Hin. destruct Hin as [i Hi].
  unfold nlpy_sentence_features.
  destruct (tuple_of _ _) as [maps|e] eqn:Ht.
  - exfalso. apply tuple_of_Return in Ht.
    assert (Hlt : (i < length sentence)%nat) by (apply nth_error_Some; congruence).
    pose proof (Forall2_length _ _ _ Ht) as Hlen. rewrite range_length in Hlen.
    destruct (nth_error maps i) as [f|] eqn:Hf;
      [|apply nth_error_None in Hf; lia].
    destruct (Forall2_nth_error_r _ _ _ _ _ Ht Hf) as (x & Hx & Hfx).
    rewrite range_nth in Hx by assumption. injection Hx as <-.
    rewrite (word_features_incomplete _ _ _ Hi Hr) in Hfx. discriminate.
  - apply tuple_of_Raise in Ht. destruct Ht as (x & Hx & Hfx).
    apply range_In in Hx. apply word_features_Raise in Hfx; [congruence | assumption].
Qed.

(** C2, on the code.  The raw token [xyz], which no expert.ai token
    covers, gets the record [_voidtoken()], and on the sentence of that
    record [nlpy_sentence_features] raises [KeyError: 'typeclass']. *)
Theorem sentinel_breaks_assembly :
  fst (nlpy_features [["xyz"]] [Sample.unmatched] Sample.eai Sample.w0)
  = Return [[_voidtoken]]
  /\ nlpy_sentence_features [_voidtoken] = Raise (KeyError "typeclass")
  /\ _nlpy_word_features [_voidtoken] 0 = Raise (KeyError "typeclass").
Proof. repeat split; reflexivity. Qed.

(** ** One record for each token, one dictionary for each record *)

Lemma align_sentence_Return {S} (docs : list Document) (sent_idx : Z)
    (eai : Expertai S) (sentence : list string) :
  forall (seek : Z) (eai_tokenlist : list AttributeRecord) (w w' : World S)
         (recs : list AttributeRecord),
    align_sentence docs sent_idx eai sentence seek eai_tokenlist w
    = (Return recs, w') ->
    exists new, recs = eai_tokenlist ++ new /\ Forall2 record_of sentence new.
Proof.
  induction sentence as [|token sentence IH]; intros seek acc w w' recs H; simpl in H.
  - apply ret_Return in H. destruct H as [-> _].
    exists []. rewrite app_nil_r. split; [reflexivity | constructor].
  - apply bind_Return in H. destruct H as ([new_token seek'] & w1 & Hstep & H).
    apply IH in H. destruct H as (new & -> & Hnew).
    exists (new_token :: new). rewrite <- app_assoc. split; [reflexivity|].
    constructor; [|assumption].
    apply align_token_Return in Hstep.
    destruct Hstep as (doc & _ & _ & [[_ ->] | (t & anc & lab & _ & _ & _ & _ & ->)]).
    + left. reflexivity.
    + right. reflexivity.
Qed.

Lemma nlpy_features_loop_Return {S} (docs : list Document) (eai : Expertai S)
    (sentences : list (list string)) :
  forall (i : Z) (eai_sents : list (list AttributeRecord)) (w w' : World S)
         (out : list (list AttributeRecord)),
    nlpy_features_loop (enumerate_from i sentences) docs eai eai_sents w
    = (Return out, w') ->
    exists new, out = eai_sents ++ new /\ one_record_per_token sentences new.
Proof.
  induction sentences as [|sentence sentences IH]; intros i acc w w' out H; simpl in H.
  - apply ret_Return in H. destruct H as [-> _].
    exists []. rewrite app_nil_r. split; [reflexivity | constructor].
  - apply bind_Return in H. destruct H as (recs & w1 & Hsent & H).
    apply IH in H. destruct H as (new & -> & Hnew).
    exists (recs :: new). rewrite <- app_assoc. split; [reflexivity|].
    apply align_sentence_Return in Hsent. destruct Hsent as (new' & -> & Hrecs).
    constructor; [|assumption]. simpl. split; [|assumption].
    symmetry. eapply Forall2_length; eauto.
Qed.

(** An exception of the knowledge graph lookup ends [nlpy_features], and
    no record is yielded for any token. *)
Lemma lookup_failure_yields_no_records :
  fst (nlpy_features [Sample.raw_cats] [Sample.cats_stop] Sample.eai_down Sample.w0)
  = Raise (ServiceError "kgraph")
  /\ ~ yields_records [Sample.raw_cats] [Sample.cats_stop] Sample.eai_down Sample.w0.
Proof.
  split; [reflexivity|].
  intros (eai_sents & w' & Hrun & _). vm_compute in Hrun. discriminate Hrun.
Qed.

(** C5, on the code.  With a client that answers every lookup, the
    sentence [cats are great] and its document, whose text is the tokens
    joined by single spaces, [nlpy_features] ends with [IndexError] after
    the last token and yields no record; and where it does return records,
    as for the token [xyz] without expert.ai token, [nlpy_sentence_features]
    raises [KeyError: 'typeclass'] on them and yields no dictionary. *)
Theorem joined_sentence_yields_no_records :
  content Sample.cats = Py.join " " Sample.raw_cats
  /\ fst (nlpy_features [Sample.raw_cats] [Sample.cats] Sample.eai Sample.w0)
     = Raise IndexError
  /\ ~ yields_records [Sample.raw_cats] [Sample.cats] Sample.eai Sample.w0
  /\ fst (nlpy_features [["xyz"]] [Sample.unmatched] Sample.eai Sample.w0)
     = Return [[_voidtoken]]
  /\ ~ returns (nlpy_sentence_features [_voidtoken]).
Proof.
  split; [reflexivity|]. split; [reflexivity|]. split; [|split; [reflexivity|]].
  - intros (eai_sents & w' & Hrun & _). vm_compute in Hrun. discriminate Hrun.
  - intros [maps Hrun]. vm_compute in Hrun. discriminate Hrun.
Qed.

(** What holds when the two functions return.  When [nlpy_features]
    returns, it returns for each sentence, in order, one record for each raw
    token, in order: the sentinel or a record with the token as its word.
    When
    [nlpy_sentence_features] returns, it returns one dictionary for each
    record, the one of index [i] being that of the record of index [i];
    and it does return when every record has the key ['typeclass']. *)
Theorem one_record_and_one_map_per_token :
  (forall S (sentences : list (list string)) (docs : list Document)
          (eai : Expertai S) (w w' : World S) eai_sents,
      nlpy_features sentences docs eai w = (Return eai_sents, w') ->
      length eai_sents = length sentences
      /\ one_record_per_token sentences eai_sents)
  /\ (forall sentence maps,
        nlpy_sentence_features sentence = Return maps ->
        length maps = length sentence
        /\ forall i f, nth_error maps i = Some f ->
                       _nlpy_word_features sentence (Z.of_nat i) = Return f)
  /\ (forall sentence,
        Forall complete sentence -> returns (nlpy_sentence_features sentence)).
Proof.
  split; [|split].
  - intros S sentences docs eai w w' eai_sents H.
    unfold nlpy_features, enumerate in H.
    apply nlpy_features_loop_Return in H. destruct H as (new & -> & Hnew).
    simpl. split; [|assumption].
    symmetry. eapply Forall2_length; eauto.
  - intros sentence maps H. unfold nlpy_sentence_features in H.
    apply tuple_of_Return in H.
    pose proof (Forall2_length _ _ _ H) as Hlen. rewrite range_length in Hlen.
    split; [congruence|].
    intros i f Hi.
    destruct (Forall2_nth_error_r _ _ _ _ _ H Hi) as (x & Hx & Hf).
    assert (Hlt : (i < length sentence)%nat).
    { rewrite Hlen. apply nth_error_Some. congruence. }
    rewrite range_nth in Hx by assumption. injection Hx as <-. exact Hf.
  - intros sentence Hc.
    destruct (sentence_features_complete sentence Hc) as (maps & Hrun & _).
    exists maps. exact Hrun.
Qed.

Lemma one_record_and_one_map_per_token_witness :
  (exists eai_sents,
      fst (nlpy_features [Sample.raw_cats] [Sample.cats_stop] Sample.eai Sample.w0)
      = Return eai_sents
      /\ length eai_sents = 1%nat
      /\ one_record_per_token [Sample.raw_cats] eai_sents)
  /\ returns (nlpy_sentence_features [Sample.r0; Sample.r1; Sample.r2]).
Proof.
  destruct one_record_and_one_map_per_token as (Hrecs & _ & Hmaps).
  split.
  - destruct (nlpy_features [Sample.raw_cats] [Sample.cats_stop] Sample.eai Sample.w0)
      as [[eai_sents|e] w'] eqn:Hrun; [|vm_compute in Hrun; discriminate Hrun].
    exists eai_sents. split; [reflexivity|].
    apply (Hrecs _ _ _ _ _ _ _ Hrun).
  - apply Hmaps. repeat constructor; discriminate.
Defined.

(** ** The cursor at the end of the text *)

(** A step whose raw token ends where the text ends does not return: after
    the record is built the loop reads [content[len(content)]]. *)
Lemma align_token_at_end {S} (docs : list Document) (sent_idx : Z)
    (eai : Expertai S) (token : string) (seek : Z) (w : World S)
    (doc : Document) :
  Py.list_getitem docs sent_idx = Return doc ->
  Py.len (content doc) <= Py.find (content doc) token seek + Py.len token ->
  exists e w', align_token docs sent_idx eai token seek w = (Raise e, w').
Proof.
  intros Hdoc Hend.
  destruct (align_token docs sent_idx eai token seek w) as [[[r seek']|e] w'] eqn:Hrun;
    [|eauto].
  exfalso. apply align_token_Return in Hrun.
  destruct Hrun as (doc' & Hdoc' & Hskip & _).
  rewrite Hdoc in Hdoc'. injection Hdoc' as <-.
  rewrite skip_spaces_at_end in Hskip by assumption. discriminate.
Qed.

(** C1, on the code.  For the sentence [cats are great], whose text ends
    with its last token, the loop after the last token reads
    [content[14]], one past the last character, and [nlpy_features] ends
    with [IndexError]. *)
Theorem cursor_reads_past_end :
  Py.len (content Sample.cats) = 14
  /\ Py.find (content Sample.cats) "great" 9 + Py.len "great" = 14
  /\ skip_spaces (content Sample.cats) 14 = Raise IndexError
  /\ fst (nlpy_features [Sample.raw_cats] [Sample.cats] Sample.eai Sample.w0)
     = Raise IndexError.
Proof. repeat split; reflexivity. Qed.

(** ** Sentences whose text is their tokens joined by single spaces *)

Lemma len_append (a b : string) :
  Py.len (a +:+ b) = Py.len a + Py.len b.
Proof.
  unfold Py.len, String.app.
  induction a as [|c a IH]; simpl String.length; [reflexivity|]. lia.
Qed.

Lemma len_nonneg (s : string) : 0 <= Py.len s.
Proof. unfold Py.len. lia. Qed.

Lemma append_assoc (a b c : string) : (a +:+ b) +:+ c = a +:+ (b +:+ c).
Proof.
  unfold String.app.
  induction a as [|x a IH]; simpl; [reflexivity | f_equal; exact IH].
Qed.

Lemma append_empty_r (a : string) : a +:+ "" = a.
Proof.
  unfold String.app.
  induction a as [|x a IH]; simpl; [reflexivity | f_equal; exact IH].
Qed.

Lemma drop_append (a b : string) : Py.drop (String.length a) (a +:+ b) = b.
Proof.
  unfold String.app.
  induction a as [|c a IH]; simpl; [destruct b; reflexivity | exact IH].
Qed.

Lemma startswith_prefix (sub s : string) : Py.startswith sub (sub +:+ s) = true.
Proof.
  unfold String.app.
  induction sub as [|c sub IH]; simpl; [reflexivity|].
  rewrite Ascii.eqb_refl. exact IH.
Qed.

Lemma get_append (a b : string) (c : ascii) :
  String.get (String.length a) (a +:+ String c b) = Some c.
Proof.
  unfold String.app. induction a as [|x a IH]; simpl; [reflexivity | exact IH].
Qed.

Lemma getitem_append (a b : string) (c : ascii) :
  Py.getitem (a +:+ String c b) (Py.len a) = Return c.
Proof.
  unfold Py.getitem, Py.norm_index. pose proof (len_nonneg a) as Ha.
  destruct (Z.ltb_spec (Py.len a) 0); [lia|].
  destruct (Z.ltb_spec (Py.len a) 0); [lia|].
  unfold Py.len at 1. rewrite Nat2Z.id, get_append. reflexivity.
Qed.

(** [find] from the position where the token stands returns that position. *)
Lemma find_here (a token b : string) :
  Py.find (a +:+ (token +:+ b)) token (Py.len a) = Py.len a.
Proof.
  unfold Py.find, Py.norm_index. pose proof (len_nonneg a) as Ha.
  pose proof (len_nonneg (token +:+ b)) as Hb.
  destruct (Z.ltb_spec (Py.len a) 0); [lia|].
  rewrite Z.max_r by lia. rewrite len_append.
  destruct (Z.ltb_spec (Py.len a + Py.len (token +:+ b)) (Py.len a)); [lia|].
  unfold Py.len at 1. rewrite Nat2Z.id, drop_append.
  destruct (token +:+ b) eqn:Htb; simpl;
    rewrite <- Htb, startswith_prefix; reflexivity.
Qed.

Lemma find_here_end (a token : string) :
  Py.find (a +:+ token) token (Py.len a) = Py.len a.
Proof.
  rewrite <- (append_empty_r token) at 1. apply find_here.
Qed.

(** After a token that a space and a character other than a space follow,
    the cursor stops behind the space. *)
Lemma skip_spaces_one (a b : string) (c : ascii) :
  Ascii.eqb c " " = false ->
  skip_spaces (a +:+ String " " (String c b)) (Py.len a) = Return (Py.len a + 1).
Proof.
  intros Hc. rewrite skip_spaces_unfold, getitem_append.
  change (Ascii.eqb " " " ") with true. cbv iota.
  rewrite skip_spaces_unfold.
  change (String " " (String c b)) with (" " +:+ String c b).
  rewrite <- append_assoc.
  replace (Py.len a + 1) with (Py.len (a +:+ " "))
    by (rewrite len_append; reflexivity).
  rewrite getitem_append, Hc. reflexivity.
Qed.

Lemma plain_head (token : string) :
  plain token -> exists c rest, token = String c rest /\ Ascii.eqb c " " = false.
Proof.
  intros [Hne Hsp]. destruct token as [|c rest]; [congruence|].
  exists c, rest. split; [reflexivity|].
  simpl in Hsp. apply orb_false_elim in Hsp. tauto.
Qed.

Lemma join_cons (token t2 : string) (rest : list string) :
  Py.join " " (token :: t2 :: rest) = token +:+ (" " +:+ Py.join " " (t2 :: rest)).
Proof. reflexivity. Qed.

Lemma join_head (token : string) (rest : list string) :
  plain token ->
  exists c tl, Py.join " " (token :: rest) = String c tl /\ Ascii.eqb c " " = false.
Proof.
  intros Hp. destruct (plain_head token Hp) as (c & tk & -> & Hc).
  destruct rest as [|t2 rest]; [exists c, tk; auto|].
  rewrite join_cons. exists c, (tk +:+ (" " +:+ Py.join " " (t2 :: rest))).
  split; [reflexivity | assumption].
Qed.

(** The loop over the tokens of an ordinary sentence, started where the
    rest of the sentence stands in the text, does not return. *)
Lemma align_sentence_joined {S} (docs : list Document) (sent_idx : Z)
    (eai : Expertai S) (doc : Document) (sentence : list string) :
  Py.list_getitem docs sent_idx = Return doc ->
  sentence <> [] ->
  Forall plain sentence ->
  forall (before : string) (eai_tokenlist : list AttributeRecord) (w : World S),
    content doc = before +:+ Py.join " " sentence ->
    exists e w',
      align_sentence docs sent_idx eai sentence (Py.len before) eai_tokenlist w
      = (Raise e, w').
Proof.
  intros Hdoc Hne Hplain. induction Hplain as [|token rest Htoken Hrest IH];
    [congruence|]. intros before acc w Hcontent.
  simpl. unfold bind at 1.
  destruct (align_token docs sent_idx eai token (Py.len before) w)
    as [[[new_token seek']|e] w1] eqn:Hstep; [|eauto].
  apply align_token_Return in Hstep.
  destruct Hstep as (doc' & Hdoc' & Hskip & _).
  rewrite Hdoc in Hdoc'. injection Hdoc' as <-.
  destruct rest as [|t2 rest].
  - exfalso. change (Py.join " " [token]) with token in Hcontent.
    rewrite Hcontent, find_here_end, skip_spaces_at_end in Hskip;
      [discriminate|].
    rewrite len_append. lia.
  - rewrite join_cons in Hcontent.
    inversion Hrest as [|? ? Ht2 _]; subst.
    destruct (join_head t2 rest Ht2) as (c & tl & Hjoin & Hc).
    rewrite Hcontent, find_here, Hjoin in Hskip.
    change (" " +:+ String c tl) with (String " " (String c tl)) in Hskip.
    rewrite <- append_assoc, <- len_append in Hskip.
    rewrite skip_spaces_one in Hskip by assumption. injection Hskip as <-.
    replace (Py.len (before +:+ token) + 1)
      with (Py.len ((before +:+ token) +:+ " "))
      by (rewrite (len_append _ " "); reflexivity).
    apply IH; [discriminate|].
    rewrite Hcontent, !append_assoc. reflexivity.
Qed.

(** On a sentence of ordinary tokens whose document holds them joined by
    single spaces, [nlpy_features] ends with an exception. *)
Lemma nlpy_features_joined_raises {S} (sentence : list string) (doc : Document)
    (eai : Expertai S) (w : World S) :
  sentence <> [] ->
  Forall plain sentence ->
  content doc = Py.join " " sentence ->
  exists e w', nlpy_features [sentence] [doc] eai w = (Raise e, w').
Proof.
  intros Hne Hplain Hcontent. unfold nlpy_features, enumerate. simpl.
  unfold bind at 1.
  destruct (align_sentence_joined [doc] 0 eai doc sentence eq_refl Hne Hplain
              "" [] w Hcontent) as (e & w' & Hrun).
  change (Py.len "") with 0 in Hrun. rewrite Hrun. eauto.
Qed.

(** * Further properties *)

(** ** Analysis without the safety net *)

Lemma analyses_app {S} (eai : Expertai S) (texts1 texts2 : list string) (s : S) :
  analyses eai (texts1 ++ texts2) s
  = let out1 := analyses eai texts1 s in
    let out2 := analyses eai texts2 (snd out1) in
    (fst out1 ++ fst out2, snd out2).
Proof.
  revert s; induction texts1 as [|t ts IH]; intros s; simpl.
  - destruct (analyses eai texts2 s); reflexivity.
  - destruct (analyze eai t analysis_features s) as [r s1]. rewrite IH. simpl.
    destruct (analyses eai ts s1) as [rs s2]. simpl.
    destruct (analyses eai texts2 s2); reflexivity.
Qed.

(** The loop of [tokens_to_docs] in terms of the outcomes of the analyses:
    with no exception among them it goes through all the sentences; with
    one, it ends at the first. *)
Lemma docs_loop_outcomes {S} (eai : Expertai S) (raw : list (list string)) :
  forall (docs : list Document) (w : World S),
    let texts := texts_of raw in
    let out := analyses eai texts (svc w) in
    tokens_to_docs_loop eai raw docs w
    = match first_failure (fst out) with
      | None =>
          (Return (docs ++ analysed (fst out)),
           mkWorld (snd out) (calls w ++ submissions texts) (stdout w))
      | Some (i, e) =>
          (Raise e,
           mkWorld (snd (analyses eai (firstn (Datatypes.S i) texts) (svc w)))
                   (calls w ++ submissions (firstn (Datatypes.S i) texts))
                   (stdout w))
      end.
Proof.
  induction raw as [|sent raw IH]; intros docs w; cbv zeta.
  - simpl. rewrite !app_nil_r. destruct w; reflexivity.
  - change (texts_of (sent :: raw)) with (Py.join " " sent :: texts_of raw).
    simpl tokens_to_docs_loop. generalize (Py.join " " sent) as text. intros text.
    unfold bind at 1. unfold eai_analyze. simpl analyses.
    destruct (analyze eai text analysis_features (svc w)) as [[doc|e] s'] eqn:Ha;
      cbn [svc calls stdout].
    + rewrite IH. cbn [svc calls stdout].
      destruct (analyses eai (texts_of raw) s') as [rs s''] eqn:Hrest.
      cbn [fst snd first_failure].
      destruct (first_failure rs) as [[i e]|].
      * change (firstn (Datatypes.S (Datatypes.S i)) (text :: texts_of raw))
          with (text :: firstn (Datatypes.S i) (texts_of raw)).
        simpl analyses. try rewrite Ha.
        destruct (analyses eai (firstn (Datatypes.S i) (texts_of raw)) s').
        cbn [fst snd submissions map]. rewrite <- !app_assoc. reflexivity.
      * cbn [analysed submissions map]. rewrite <- !app_assoc. reflexivity.
    + destruct (analyses eai (texts_of raw) s') as [rs s''].
      cbn [fst snd first_failure firstn]. simpl analyses. try rewrite Ha. reflexivity.
Qed.

Lemma first_failure_None (outcomes : list (result Document)) :
  first_failure outcomes = None <-> forall i, failed_from i outcomes = [].
Proof.
  induction outcomes as [|[doc|e] outs IH]; simpl.
  - tauto.
  - destruct (first_failure outs) as [[j e]|].
    + split; [discriminate|]. intros H. exfalso.
      assert (Hnone : Some (j, e) = None); [|discriminate].
      apply IH. intros i.
      specialize (H (i - 1)). replace (i - 1 + 1) with i in H by lia. exact H.
    + split; [|reflexivity]. intros _ i. apply IH. reflexivity.
  - split; [discriminate|]. intros H. specialize (H 0). discriminate.
Qed.

Lemma first_failure_Some (outcomes : list (result Document)) (i : nat) (e : exn) :
  first_failure outcomes = Some (i, e) ->
  nth_error outcomes i = Some (Raise e)
  /\ forall j, (j < i)%nat -> exists doc, nth_error outcomes j = Some (Return doc).
Proof.
  revert i; induction outcomes as [|[doc|e'] outs IH]; intros i; simpl.
  - discriminate.
  - destruct (first_failure outs) as [[j e'']|]; [|discriminate].
    intros [= <- <-]. destruct (IH j eq_refl) as [Hj Hbefore].
    split; [exact Hj|]. intros [|k] Hk; simpl; [eauto | apply Hbefore; lia].
  - intros [= <- <-]. split; [reflexivity|]. intros j Hj. lia.
Qed.

Lemma first_failure_complete (outcomes : list (result Document)) :
  first_failure outcomes = None ->
  length (analysed outcomes) = length outcomes.
Proof.
  induction outcomes as [|[doc|e] outs IH]; simpl; [reflexivity | | discriminate].
  destruct (first_failure outs) as [[j e]|]; [discriminate|].
  intros _. rewrite IH; reflexivity.
Qed.

(** X1.  [tokens_to_docs] fails fast.  When no analysis raises it returns
    one document for each sentence, in order, after submitting every
    sentence.  When the analysis of the sentence of index [i] is the first
    to raise, [tokens_to_docs] ends with that exception, the documents
    obtained so far are lost, and the sentences after index [i] are not
    submitted. *)
Theorem tokens_to_docs_fails_fast {S} (raw : list (list string))
    (eai : Expertai S) (w : World S) :
  let texts := texts_of raw in
  let outcomes := fst (analyses eai texts (svc w)) in
  (first_failure outcomes = None ->
   exists docs w',
     tokens_to_docs raw eai w = (Return docs, w')
     /\ docs = analysed outcomes
     /\ length docs = length raw
     /\ calls w' = calls w ++ submissions texts
     /\ stdout w' = stdout w)
  /\ (forall i e,
        first_failure outcomes = Some (i, e) ->
        nth_error outcomes i = Some (Raise e)
        /\ (forall j, (j < i)%nat ->
                      exists doc, nth_error outcomes j = Some (Return doc))
        /\ exists w',
             tokens_to_docs raw eai w = (Raise e, w')
             /\ calls w' = calls w ++ submissions (firstn (Datatypes.S i) texts)
             /\ stdout w' = stdout w).
Proof.
  cbv zeta. unfold tokens_to_docs. rewrite docs_loop_outcomes. split.
  - intros Hnone. rewrite Hnone. do 2 eexists. split; [reflexivity|]. simpl.
    split; [reflexivity|]. split; [|auto].
    rewrite first_failure_complete by assumption.
    rewrite analyses_length. unfold texts_of. apply length_map.
  - intros i e Hsome. rewrite Hsome.
    destruct (first_failure_Some _ _ _ Hsome) as [Hi Hbefore].
    split; [assumption|]. split; [assumption|].
    eexists. split; [reflexivity|]. simpl. auto.
Qed.

Lemma tokens_to_docs_fails_fast_witness :
  (exists docs w',
      tokens_to_docs [["a"]; ["b"; "c"]] Sample.eai Sample.w0 = (Return docs, w')
      /\ length docs = 2%nat)
  /\ exists w',
       tokens_to_docs [["a"]; ["bad"]; ["c"]] Sample.eai Sample.w0
       = (Raise (ServiceError "analyze"), w')
       /\ calls w' = submissions ["a"; "bad"].
Proof.
  split.
  - destruct (tokens_to_docs_fails_fast [["a"]; ["b"; "c"]] Sample.eai Sample.w0)
      as [H _].
    destruct (H eq_refl) as (docs & w' & Hrun & _ & Hlen & _).
    exists docs, w'. split; assumption.
  - destruct (tokens_to_docs_fails_fast [["a"]; ["bad"]; ["c"]] Sample.eai Sample.w0)
      as [_ H].
    destruct (H 1%nat (ServiceError "analyze") eq_refl) as (_ & _ & w' & Hrun & Hcalls & _).
    exists w'. split; assumption.
Defined.

(** ** The two ways of analysing, compared *)

Lemma failed_from_nil_shift (outcomes : list (result Document)) :
  forall i j, failed_from i outcomes = [] -> failed_from j outcomes = [].
Proof.
  induction outcomes as [|[doc|e] outs IH]; intros i j; simpl;
    [reflexivity | apply IH | discriminate].
Qed.

Lemma first_failure_failed_from (outcomes : list (result Document)) :
  first_failure outcomes = None <-> failed_from 0 outcomes = [].
Proof.
  rewrite first_failure_None. split; [intros H; apply H|].
  intros H i. eapply failed_from_nil_shift; eauto.
Qed.

(** X2.  The two functions agree when nothing fails: if [tokens_to_docs]
    returns, [tokens_to_docs_safe] returns the same documents and no error,
    after the same calls, and prints [0 errors]; and if
    [tokens_to_docs_safe] returns no error, [tokens_to_docs] returns the
    same documents. *)
Theorem safe_agrees_without_failure {S} (raw : list (list string))
    (eai : Expertai S) (w : World S) :
  (forall docs w',
      tokens_to_docs raw eai w = (Return docs, w') ->
      tokens_to_docs_safe raw eai w
      = (Return (docs, []),
         mkWorld (svc w') (calls w')
                 (stdout w' ++ [[PyInt 0; PyStr "errors"]])))
  /\ (forall docs w',
        tokens_to_docs_safe raw eai w = (Return (docs, []), w') ->
        exists w'',
          tokens_to_docs raw eai w = (Return docs, w'')
          /\ svc w'' = svc w' /\ calls w'' = calls w').
Proof.
  unfold tokens_to_docs, tokens_to_docs_safe, enumerate, bind.
  rewrite docs_loop_outcomes, safe_loop_outcomes. cbv zeta. simpl app.
  set (out := analyses eai (texts_of raw) (svc w)).
  split.
  - intros docs w' H.
    destruct (first_failure (fst out)) as [[i e]|] eqn:Hff; [discriminate|].
    injection H as <- <-.
    apply first_failure_failed_from in Hff. rewrite Hff. reflexivity.
  - intros docs w' H. unfold print, ret in H. cbn [svc calls stdout] in H.
    injection H as <- Herr <-.
    apply first_failure_failed_from in Herr. rewrite Herr.
    eexists. split; [reflexivity|]. split; reflexivity.
Qed.

Lemma safe_agrees_without_failure_witness :
  exists docs w',
    tokens_to_docs_safe [["a"]; ["b"; "c"]] Sample.eai Sample.w0
    = (Return (docs, []), w')
    /\ length docs = 2%nat.
Proof.
  destruct (tokens_to_docs [["a"]; ["b"; "c"]] Sample.eai Sample.w0)
    as [[docs|e] w'] eqn:Hrun; [|vm_compute in Hrun; discriminate Hrun].
  exists docs. eexists. split.
  - apply (safe_agrees_without_failure [["a"]; ["b"; "c"]] Sample.eai Sample.w0).
    exact Hrun.
  - vm_compute in Hrun. injection Hrun as <- _. reflexivity.
Defined.

(** X3.  What [tokens_to_docs_safe] returns accounts for every sentence
    once: the documents and the errors together are as many as the
    sentences, every error is the index of a sentence, and the documents
    are as many as the sentences only when there is no error.  So after a
    failure [docs[i]] is no longer the document of [raw[i]]. *)
Theorem safe_accounts_for_every_sentence {S} (raw : list (list string))
    (eai : Expertai S) (w w' : World S) (docs : list Document) (errors : list Z) :
  tokens_to_docs_safe raw eai w = (Return (docs, errors), w') ->
  (length docs + length errors)%nat = length raw
  /\ Forall (fun i => 0 <= i < Z.of_nat (length raw)) errors
  /\ (errors = [] <-> length docs = length raw).
Proof.
  unfold tokens_to_docs_safe, enumerate, bind.
  rewrite safe_loop_outcomes. cbv zeta. simpl app.
  set (outcomes := fst (analyses eai (texts_of raw) (svc w))).
  unfold print, ret. cbn [svc calls stdout]. intros H. injection H as <- <- _.
  assert (Hlen : length outcomes = length raw).
  { unfold outcomes. rewrite analyses_length. unfold texts_of. apply length_map. }
  pose proof (analysed_failed_length outcomes 0) as Hsum. rewrite Hlen in Hsum.
  split; [exact Hsum|]. split.
  - apply List.Forall_forall. intros i Hi. apply failed_from_spec in Hi.
    destruct Hi as [Hi [e He]].
    assert (Z.to_nat (i - 0) < length outcomes)%nat
      by (apply nth_error_Some; congruence).
    lia.
  - split.
    + intros Hnil. rewrite Hnil in Hsum. simpl in Hsum. lia.
    + intros Hfull. destruct (failed_from 0 outcomes); [reflexivity|].
      simpl in Hsum. lia.
Qed.

Lemma safe_accounts_for_every_sentence_witness :
  exists docs errors w',
    tokens_to_docs_safe [["a"]; ["bad"]; ["c"]] Sample.eai Sample.w0
    = (Return (docs, errors), w')
    /\ (length docs + length errors)%nat = 3%nat
    /\ Forall (fun i => 0 <= i < 3) errors.
Proof.
  destruct (tokens_to_docs_safe [["a"]; ["bad"]; ["c"]] Sample.eai Sample.w0)
    as [[[docs errors]|e] w'] eqn:Hrun; [|vm_compute in Hrun; discriminate Hrun].
  exists docs, errors, w'. split; [reflexivity|].
  destruct (safe_accounts_for_every_sentence _ _ _ _ _ _ Hrun) as (Hsum & Hall & _).
  split; assumption.
Defined.

(** ** The candidates of a raw token *)

(** X4.  The three tests of [nlpy_features] together are the test that two
    closed intervals meet: an expert.ai token whose span is not reversed is
    a candidate for a raw token exactly when it is a token of the document
    and its span [[t.start, t.end]] meets [[index_start, index_end]], the
    ends included.  A token that only touches the raw token is a
    candidate. *)
Theorem candidates_meet_span (doc : Document) (token : string) (seek : Z)
    (t : Token) :
  t_start t <= t_end t ->
  let index_start := Py.find (content doc) token seek in
  let index_end := index_start + Py.len token in
  In t (candidates doc token seek)
  <-> In t (tokens doc) /\ t_start t <= index_end /\ index_start <= t_end t.
Proof.
  intros Hspan. cbv zeta. unfold candidates. rewrite filter_In.
  pose proof (Zle_0_nat (String.length token)) as Hlen. fold (Py.len token) in Hlen.
  unfold overlaps. rewrite !orb_true_iff, !andb_true_iff.
  rewrite !Z.geb_le, !Z.leb_le. split.
  - intros [Hin H]. split; [assumption|]. lia.
  - intros [Hin H]. split; [assumption|]. lia.
Qed.

Lemma candidates_meet_span_witness :
  In (mkToken 0 8 "NPR" 500 "root" "NPR.GEO") (candidates Sample.new_york "New" 0)
  <-> In (mkToken 0 8 "NPR" 500 "root" "NPR.GEO") (tokens Sample.new_york)
      /\ 0 <= 3 /\ 0 <= 8.
Proof.
  apply (candidates_meet_span Sample.new_york "New" 0
           (mkToken 0 8 "NPR" 500 "root" "NPR.GEO")).
  simpl. lia.
Defined.

(** ** The cursor after a token *)

Lemma skip_spaces_Return_inv (content : string) (n : nat) :
  forall seek seek',
    Z.to_nat (Py.len content - seek) = n ->
    skip_spaces content seek = Return seek' ->
    seek <= seek'
    /\ (exists c, Py.getitem content seek' = Return c /\ c <> " "%char)
    /\ forall i, seek <= i < seek' -> Py.getitem content i = Return " "%char.
Proof.
  induction n as [|n IH]; intros seek seek' Hn; rewrite skip_spaces_unfold;
    destruct (Py.getitem content seek) as [c|e] eqn:Hg; try discriminate.
  - apply getitem_Return_bounds in Hg. lia.
  - destruct (Ascii.eqb_spec c " ") as [->|Hc].
    + intros H. apply IH in H; [|apply getitem_Return_bounds in Hg; lia].
      destruct H as (Hle & Hstop & Hsp). split; [lia|]. split; [assumption|].
      intros i Hi. destruct (Z.eq_dec i seek) as [->|]; [assumption|].
      apply Hsp. lia.
    + intros [= <-]. split; [lia|]. split; [eauto|]. intros i Hi. lia.
Qed.

Lemma getitem_in_bounds (s : string) (i : Z) :
  - Py.len s <= i < Py.len s -> exists c, Py.getitem s i = Return c.
Proof.
  intros Hi. unfold Py.getitem, Py.norm_index, Py.len in *.
  destruct (Z.ltb_spec i 0).
  - destruct (Z.ltb_spec (i + Z.of_nat (String.length s)) 0); [lia|].
    destruct (String.get _ s) eqn:Hget; [eauto|].
    apply get_None_ge in Hget. lia.
  - destruct (Z.ltb_spec i 0); [lia|].
    destruct (String.get _ s) eqn:Hget; [eauto|].
    apply get_None_ge in Hget. lia.
Qed.

Lemma skip_spaces_Raise_inv (content : string) (n : nat) :
  forall seek e,
    Z.to_nat (Py.len content - seek) = n ->
    - Py.len content <= seek ->
    skip_spaces content seek = Raise e ->
    forall i, seek <= i < Py.len content -> Py.getitem content i = Return " "%char.
Proof.
  induction n as [|n IH]; intros seek e Hn Hlow; rewrite skip_spaces_unfold;
    destruct (Py.getitem content seek) as [c|e'] eqn:Hg.
  - apply getitem_Return_bounds in Hg. lia.
  - intros _ i Hi. lia.
  - destruct (Ascii.eqb_spec c " ") as [->|Hc]; [|discriminate].
    intros H i Hi. destruct (Z.eq_dec i seek) as [->|]; [assumption|].
    apply getitem_Return_bounds in Hg.
    eapply (IH (seek + 1)); eauto; lia.
  - intros _ i Hi.
    destruct (getitem_in_bounds content seek) as [c Hc]; [lia | congruence].
Qed.

(** X5.  The loop that moves the cursor over spaces.  When it returns, the
    cursor has not moved left, it stands on a character that is not a
    space, and it has passed only spaces.  When it raises, the exception is
    [IndexError], and if the cursor started inside the text every character
    from it to the end of the text is a space: the loop ran off the end. *)
Theorem skip_spaces_stops_at_non_space (content : string) (seek : Z) :
  (forall seek',
      skip_spaces content seek = Return seek' ->
      seek <= seek'
      /\ (exists c, Py.getitem content seek' = Return c /\ c <> " "%char)
      /\ forall i, seek <= i < seek' -> Py.getitem content i = Return " "%char)
  /\ (forall e,
        skip_spaces content seek = Raise e ->
        e = IndexError
        /\ (- Py.len content <= seek ->
            forall i, seek <= i < Py.len content ->
                      Py.getitem content i = Return " "%char)).
Proof.
  split.
  - intros seek' H. eapply skip_spaces_Return_inv; eauto.
  - intros e H. split; [eapply skip_spaces_Raise; eauto|].
    intros Hlow. eapply skip_spaces_Raise_inv; eauto.
Qed.

Lemma skip_spaces_stops_at_non_space_witness :
  (exists c, Py.getitem "a  b " 3 = Return c /\ c <> " "%char)
  /\ forall i, 4 <= i < Py.len "a  b " -> Py.getitem "a  b " i = Return " "%char.
Proof.
  split.
  - apply (skip_spaces_stops_at_non_space "a  b " 1). reflexivity.
  - apply (proj2 (skip_spaces_stops_at_non_space "a  b " 4) IndexError).
    + reflexivity.
    + vm_compute. discriminate.
Defined.

(** ** The label of a syncon *)

Lemma get_label_no_dot (doc : Document) (syncon : Z) :
  exists label,
    _get_label doc syncon = Return label /\ Py.contains "." label = false.
Proof.
  destruct (knowledge_k doc) as [k|] eqn:Hk.
  - destruct (get_label_leaf doc syncon k Hk) as (leaf & Hrun & Hleaf).
    exists leaf. split; [assumption|]. unfold leaf_of in Hleaf.
    destruct (Py.contains "." (scan_label k syncon)) eqn:Hc.
    + destruct Hleaf as (pre & _ & Hno). exact Hno.
    + subst leaf. exact Hc.
  - exists "". unfold _get_label. rewrite Hk. auto.
Qed.

(** X6.  [_get_label] raises for no document and no syncon, and the label
    it returns has no [.] in it: a label of the knowledge set is returned
    whole only when it has none, and one that ends with [.] gives the
    empty string. *)
Theorem get_label_has_no_dot (doc : Document) (syncon : Z) :
  (exists label,
      _get_label doc syncon = Return label /\ Py.contains "." label = false)
  /\ forall before ent after pre,
       knowledge_k doc = Some (before ++ ent :: after) ->
       Forall (fun e => ent_syncon e <> syncon) before ->
       ent_syncon ent = syncon ->
       ent_label ent = pre +:+ "." ->
       _get_label doc syncon = Return "".
Proof.
  split; [apply get_label_no_dot|].
  intros before ent after pre Hk Hb He Hl.
  destruct (get_label_leaf doc syncon _ Hk) as (leaf & Hrun & Hleaf).
  rewrite scan_label_first in Hleaf by assumption. rewrite Hrun. f_equal.
  unfold leaf_of in Hleaf. rewrite Hl in Hleaf.
  assert (Hc : Py.contains "." (pre +:+ ".") = true).
  { clear. unfold String.app. induction pre as [|c pre IH]; simpl;
      [reflexivity | rewrite IH; apply orb_true_r]. }
  rewrite Hc in Hleaf. destruct Hleaf as (pre' & Heq & Hno).
  clear - Heq Hno. unfold String.app in Heq.
  revert pre' Heq. induction pre as [|c pre IH]; intros pre' Heq.
  - destruct pre' as [|c' pre']; simpl in Heq.
    + injection Heq as <-. reflexivity.
    + injection Heq as _ Heq. destruct pre'; discriminate.
  - destruct pre' as [|c' pre']; simpl in Heq.
    + injection Heq as -> Heq. exfalso. subst leaf.
      clear - Hno. induction pre as [|c pre IH]; simpl in Hno;
        [discriminate|]. apply orb_false_elim in Hno. tauto.
    + injection Heq as _ Heq. eapply IH; eauto.
Qed.

Lemma get_label_has_no_dot_witness :
  _get_label (mkDocument "" [] (Some [mkEntry 7 "geo."])) 7 = Return "".
Proof.
  apply (get_label_has_no_dot (mkDocument "" [] (Some [mkEntry 7 "geo."])) 7)
    with (before := []) (ent := mkEntry 7 "geo.") (after := []) (pre := "geo");
    [reflexivity | constructor | reflexivity | reflexivity].
Defined.

(** ** What the alignment does to the world *)

Lemma get_ancestor_world {S} (syncon : Z) (eai : Expertai S) (w w' : World S)
    (r : result Z) :
  _get_ancestor syncon eai w = (r, w') ->
  stdout w' = stdout w
  /\ ((syncon = -1 /\ r = Return (-1) /\ calls w' = calls w)
      \/ (syncon <> -1
          /\ calls w' = calls w ++ [CallLinkedSyncons
                 (mkParams syncon "supernomen/subnomen" "from" 1) 0 1])).
Proof.
  unfold _get_ancestor. destruct (Z.eqb_spec syncon (-1)) as [->|Hne].
  - intros [= <- <-]. auto.
  - unfold bind, eai_linked_syncons.
    destruct (linked_syncons eai _ 0 1 (svc w)) as [[ancestor|e] s].
    + destruct (max_records ancestor =? 0); unfold ret, lift;
        intros [= <- <-]; simpl; auto.
    + intros [= <- <-]. simpl. auto.
Qed.

Lemma first_largest_In {A} (key : A -> Z) (l : list A) (t : A) :
  first_largest key l t -> In t l.
Proof.
  intros (before & after & -> & _). apply in_or_app. right. left. reflexivity.
Qed.

Lemma ranked_getitem_In (possible_tokens : list Token) (t : Token) :
  Py.list_getitem (ranked possible_tokens) 0 = Return t -> In t possible_tokens.
Proof.
  intros Ht. destruct possible_tokens as [|c cs] eqn:Hc; [discriminate|].
  destruct (ranked_head (c :: cs)) as (t' & Ht' & Hfirst); [discriminate|].
  rewrite Ht in Ht'. injection Ht' as <-. eapply first_largest_In; eauto.
Qed.

(** The calls of one step, whatever its outcome: none, or one lookup of the
    ancestor of the syncon of a token of the document. *)
Lemma align_token_calls {S} (docs : list Document) (sent_idx : Z)
    (eai : Expertai S) (token : string) (seek : Z) (w w' : World S)
    (r : result (AttributeRecord * Z)) :
  align_token docs sent_idx eai token seek w = (r, w') ->
  exists new,
    calls w' = calls w ++ new
    /\ (length new <= 1)%nat
    /\ Forall (ancestor_lookup_of docs) new.
Proof.
  unfold align_token. unfold bind at 1. unfold lift at 1.
  destruct (Py.list_getitem docs sent_idx) as [doc|e] eqn:Hdoc;
    [|intros [= <- <-]; exists []; rewrite app_nil_r; auto].
  fold (candidates doc token seek).
  destruct (candidates doc token seek) as [|c cs] eqn:Hc.
  - unfold bind, print, ret, lift. cbn [svc calls stdout].
    destruct (skip_spaces _ _); intros [= <- <-]; exists [];
      rewrite app_nil_r; auto.
  - rewrite <- Hc. unfold bind at 1. unfold bind at 1. unfold lift at 1.
    destruct (Py.list_getitem (ranked (candidates doc token seek)) 0)
      as [t|e] eqn:Ht; [|intros [= <- <-]; exists []; rewrite app_nil_r; auto].
    unfold bind at 1.
    destruct (_get_ancestor (t_syncon t) eai w) as [ra w1] eqn:Hanc.
    apply get_ancestor_world in Hanc.
    assert (Hw1 : exists new, calls w1 = calls w ++ new /\ (length new <= 1)%nat
                              /\ Forall (ancestor_lookup_of docs) new).
    { destruct Hanc as [_ [(_ & _ & Hcalls) | (Hne & Hcalls)]].
      - exists []. rewrite app_nil_r. auto.
      - eexists. split; [exact Hcalls|]. split; [simpl; lia|].
        constructor; [|constructor]. exists doc, t.
        split; [eapply list_getitem_Return_In; eauto|].
        apply ranked_getitem_In in Ht. unfold candidates in Ht.
        apply filter_In in Ht. tauto. }
    destruct ra as [anc|e]; [|intros [= <- <-]; exact Hw1].
    unfold bind, lift, ret.
    destruct (_get_label doc (t_syncon t)); [|intros [= <- <-]; exact Hw1].
    destruct (skip_spaces _ _); intros [= <- <-]; exact Hw1.
Qed.

Lemma align_sentence_calls {S} (docs : list Document) (sent_idx : Z)
    (eai : Expertai S) (sentence : list string) :
  forall (seek : Z) (eai_tokenlist : list AttributeRecord) (w w' : World S)
         (r : result (list AttributeRecord)),
    align_sentence docs sent_idx eai sentence seek eai_tokenlist w = (r, w') ->
    exists new,
      calls w' = calls w ++ new
      /\ (length new <= length sentence)%nat
      /\ Forall (ancestor_lookup_of docs) new.
Proof.
  induction sentence as [|token sentence IH]; intros seek acc w w' r; simpl.
  - intros [= <- <-]. exists []. rewrite app_nil_r. auto.
  - unfold bind at 1.
    destruct (align_token docs sent_idx eai token seek w) as [rt w1] eqn:Hstep.
    apply align_token_calls in Hstep. destruct Hstep as (new1 & Hc1 & Hl1 & Hf1).
    destruct rt as [[new_token seek']|e].
    + intros H. apply IH in H. destruct H as (new2 & Hc2 & Hl2 & Hf2).
      exists (new1 ++ new2). rewrite Hc2, Hc1, <- app_assoc.
      split; [reflexivity|]. split; [rewrite length_app; lia|].
      apply Forall_app; auto.
    + intros [= <- <-]. exists new1. split; [assumption|]. split; [lia | assumption].
Qed.

Lemma nlpy_features_loop_calls {S} (docs : list Document) (eai : Expertai S)
    (sentences : list (list string)) :
  forall (i : Z) (eai_sents : list (list AttributeRecord)) (w w' : World S)
         (r : result (list (list AttributeRecord))),
    nlpy_features_loop (enumerate_from i sentences) docs eai eai_sents w = (r, w') ->
    exists new,
      calls w' = calls w ++ new
      /\ (length new <= length (concat sentences))%nat
      /\ Forall (ancestor_lookup_of docs) new.
Proof.
  induction sentences as [|sentence sentences IH]; intros i acc w w' r; simpl.
  - intros [= <- <-]. exists []. rewrite app_nil_r. auto.
  - unfold bind at 1.
    destruct (align_sentence docs i eai sentence 0 [] w) as [rs w1] eqn:Hsent.
    apply align_sentence_calls in Hsent. destruct Hsent as (new1 & Hc1 & Hl1 & Hf1).
    rewrite length_app.
    destruct rs as [recs|e].
    + intros H. apply IH in H. destruct H as (new2 & Hc2 & Hl2 & Hf2).
      exists (new1 ++ new2). rewrite Hc2, Hc1, <- app_assoc.
      split; [reflexivity|]. split; [rewrite length_app; lia|].
      apply Forall_app; auto.
    + intros [= <- <-]. exists new1. split; [assumption|]. split; [lia | assumption].
Qed.

(** X7.  Whatever its outcome, [nlpy_features] never has a text analysed:
    the calls it adds are lookups of the ancestor (link
    [supernomen/subnomen], direction [from], level 1, offset 0, limit 1) of
    the syncon of a token of one of the documents, never of [-1], and they
    are at most as many as the raw tokens. *)
Theorem nlpy_features_only_looks_up {S} (sentences : list (list string))
    (docs : list Document) (eai : Expertai S) (w w' : World S)
    (r : result (list (list AttributeRecord))) :
  nlpy_features sentences docs eai w = (r, w') ->
  exists new,
    calls w' = calls w ++ new
    /\ (length new <= length (concat sentences))%nat
    /\ Forall (ancestor_lookup_of docs) new.
Proof.
  unfold nlpy_features, enumerate. apply nlpy_features_loop_calls.
Qed.

Lemma nlpy_features_only_looks_up_witness :
  exists r w',
    nlpy_features [Sample.raw_cats] [Sample.cats_stop] Sample.eai Sample.w0 = (r, w')
    /\ exists new,
         calls w' = calls Sample.w0 ++ new
         /\ (length new <= length (concat [Sample.raw_cats]))%nat
         /\ Forall (ancestor_lookup_of [Sample.cats_stop]) new.
Proof.
  destruct (nlpy_features [Sample.raw_cats] [Sample.cats_stop] Sample.eai Sample.w0)
    as [r w'] eqn:Hrun.
  exists r, w'. split; [reflexivity|].
  apply (nlpy_features_only_looks_up _ _ _ _ _ _ Hrun).
Defined.

(** ** Diagnostics and records *)

Lemma voidtoken_ok : record_ok _voidtoken.
Proof. repeat split. Qed.

(** A step that returns has printed the diagnostic exactly when the record
    is the sentinel, and the record it built is well formed. *)
Lemma align_token_Return_world {S} (docs : list Document) (sent_idx : Z)
    (eai : Expertai S) (token : string) (seek : Z) (w w' : World S)
    (rec : AttributeRecord) (seek' : Z) :
  align_token docs sent_idx eai token seek w = (Return (rec, seek'), w') ->
  stdout w' = stdout w ++ match typeclass rec with
                          | None => [diagnostic token]
                          | Some _ => []
                          end
  /\ record_ok rec.
Proof.
  unfold align_token. unfold bind at 1. unfold lift at 1.
  destruct (Py.list_getitem docs sent_idx) as [doc|e] eqn:Hdoc; [|discriminate].
  fold (candidates doc token seek).
  destruct (candidates doc token seek) as [|c cs] eqn:Hc.
  - unfold bind, print, ret, lift. cbn [svc calls stdout].
    destruct (skip_spaces _ _); [|discriminate].
    intros [= <- <- <-]. split; [reflexivity | apply voidtoken_ok].
  - rewrite <- Hc. unfold bind at 1. unfold bind at 1. unfold lift at 1.
    destruct (Py.list_getitem (ranked (candidates doc token seek)) 0)
      as [t|e] eqn:Ht; [|discriminate].
    unfold bind at 1.
    destruct (_get_ancestor (t_syncon t) eai w) as [ra w1] eqn:Hanc.
    apply get_ancestor_world in Hanc. destruct Hanc as [Hout Hanc].
    destruct ra as [anc|e]; [|discriminate].
    unfold bind, lift, ret.
    destruct (get_label_no_dot doc (t_syncon t)) as (lab & -> & Hlab).
    destruct (skip_spaces _ _); [|discriminate].
    intros [= <- <- <-]. simpl. rewrite app_nil_r. split; [assumption|].
    split; [|split].
    + simpl. intros Hs. destruct Hanc as [(_ & [= ->] & _) | (Hne & _)];
        [reflexivity | contradiction].
    + exact Hlab.
    + apply split_nonempty.
Qed.

Lemma align_sentence_Return_world {S} (docs : list Document) (sent_idx : Z)
    (eai : Expertai S) (sentence : list string) :
  forall (seek : Z) (eai_tokenlist : list AttributeRecord) (w w' : World S)
         (recs : list AttributeRecord),
    align_sentence docs sent_idx eai sentence seek eai_tokenlist w
    = (Return recs, w') ->
    exists new,
      recs = eai_tokenlist ++ new
      /\ length new = length sentence
      /\ stdout w' = stdout w ++ map diagnostic (unmatched_tokens sentence new)
      /\ Forall record_ok new.
Proof.
  induction sentence as [|token sentence IH]; intros seek acc w w' recs H; simpl in H.
  - apply ret_Return in H. destruct H as [-> ->].
    exists []. rewrite !app_nil_r. repeat split. constructor.
  - apply bind_Return in H. destruct H as ([new_token seek'] & w1 & Hstep & H).
    apply IH in H. destruct H as (new & -> & Hlen & Hout & Hok).
    apply align_token_Return_world in Hstep. destruct Hstep as [Hout1 Hok1].
    exists (new_token :: new). rewrite <- app_assoc.
    split; [reflexivity|]. split; [simpl; congruence|]. split.
    + rewrite Hout, Hout1, <- app_assoc. f_equal. simpl.
      destruct (typeclass new_token); reflexivity.
    + constructor; assumption.
Qed.

Lemma nlpy_features_loop_Return_world {S} (docs : list Document) (eai : Expertai S)
    (sentences : list (list string)) :
  forall (i : Z) (eai_sents : list (list AttributeRecord)) (w w' : World S)
         (out : list (list AttributeRecord)),
    nlpy_features_loop (enumerate_from i sentences) docs eai eai_sents w
    = (Return out, w') ->
    exists new,
      out = eai_sents ++ new
      /\ Forall2 (fun sentence recs => length recs = length sentence) sentences new
      /\ stdout w' = stdout w ++ map diagnostic (unmatched_in sentences new)
      /\ Forall (Forall record_ok) new.
Proof.
  induction sentences as [|sentence sentences IH]; intros i acc w w' out H; simpl in H.
  - apply ret_Return in H. destruct H as [-> ->].
    exists []. rewrite !app_nil_r. repeat split; constructor.
  - apply bind_Return in H. destruct H as (recs & w1 & Hsent & H).
    apply IH in H. destruct H as (new & -> & Hlen & Hout & Hok).
    apply align_sentence_Return_world in Hsent.
    destruct Hsent as (new1 & -> & Hlen1 & Hout1 & Hok1). simpl app in *.
    exists (new1 :: new). rewrite <- app_assoc.
    split; [reflexivity|]. split; [constructor; assumption|]. split.
    + rewrite Hout, Hout1, <- app_assoc. simpl. rewrite map_app. reflexivity.
    + constructor; assumption.
Qed.

(** X8.  When [nlpy_features] returns, it has printed one diagnostic for
    each raw token whose record is the sentinel, in the order of the
    tokens and naming the token, and nothing else. *)
Theorem nlpy_features_prints_unmatched {S} (sentences : list (list string))
    (docs : list Document) (eai : Expertai S) (w w' : World S)
    (eai_sents : list (list AttributeRecord)) :
  nlpy_features sentences docs eai w = (Return eai_sents, w') ->
  stdout w' = stdout w ++ map diagnostic (unmatched_in sentences eai_sents).
Proof.
  unfold nlpy_features, enumerate. intros H.
  apply nlpy_features_loop_Return_world in H.
  destruct H as (new & -> & _ & Hout & _). exact Hout.
Qed.

Lemma nlpy_features_prints_unmatched_witness :
  exists eai_sents w',
    nlpy_features [["xyz"]] [Sample.unmatched] Sample.eai Sample.w0
    = (Return eai_sents, w')
    /\ stdout w' = [diagnostic "xyz"].
Proof.
  destruct (nlpy_features [["xyz"]] [Sample.unmatched] Sample.eai Sample.w0)
    as [[eai_sents|e] w'] eqn:Hrun; [|vm_compute in Hrun; discriminate Hrun].
  exists eai_sents, w'. split; [reflexivity|].
  rewrite (nlpy_features_prints_unmatched _ _ _ _ _ _ Hrun).
  vm_compute in Hrun. injection Hrun as <- _. reflexivity.
Defined.

(** X9.  Every record that [nlpy_features] returns is well formed: a
    syncon [-1] comes with the ancestor [-1], the label has no [.], and the
    record either is the sentinel or has a type classification of at least
    one component. *)
Theorem nlpy_features_records_ok {S} (sentences : list (list string))
    (docs : list Document) (eai : Expertai S) (w w' : World S)
    (eai_sents : list (list AttributeRecord)) :
  nlpy_features sentences docs eai w = (Return eai_sents, w') ->
  Forall (Forall record_ok) eai_sents.
Proof.
  unfold nlpy_features, enumerate. intros H.
  apply nlpy_features_loop_Return_world in H.
  destruct H as (new & -> & _ & _ & Hok). exact Hok.
Qed.

Lemma nlpy_features_records_ok_witness :
  exists eai_sents w',
    nlpy_features [Sample.raw_cats] [Sample.cats_stop] Sample.eai Sample.w0
    = (Return eai_sents, w')
    /\ Forall (Forall record_ok) eai_sents.
Proof.
  destruct (nlpy_features [Sample.raw_cats] [Sample.cats_stop] Sample.eai Sample.w0)
    as [[eai_sents|e] w'] eqn:Hrun; [|vm_compute in Hrun; discriminate Hrun].
  exists eai_sents, w'. split; [reflexivity|].
  apply (nlpy_features_records_ok _ _ _ _ _ _ Hrun).
Defined.

(** ** From the alignment to the assembly *)

Lemma unmatched_tokens_nil (sentence : list string) (recs : list AttributeRecord) :
  length recs = length sentence ->
  unmatched_tokens sentence recs = [] -> Forall complete recs.
Proof.
  revert recs; induction sentence as [|token sentence IH]; intros [|r recs] Hlen;
    simpl in *; try discriminate; [constructor|].
  destruct (typeclass r) as [tc|] eqn:Htc; [|discriminate].
  intros H. constructor; [unfold complete; congruence|].
  apply IH; [lia | assumption].
Qed.

Lemma unmatched_tokens_cons (sentence : list string) (recs : list AttributeRecord) :
  unmatched_tokens sentence recs <> [] ->
  exists r, In r recs /\ typeclass r = None.
Proof.
  revert recs; induction sentence as [|token sentence IH]; intros [|r recs];
    simpl; try congruence.
  destruct (typeclass r) as [tc|] eqn:Htc.
  - intros H. destruct (IH recs H) as (r' & Hin & Hr'). eauto.
  - intros _. eauto.
Qed.

(** X10.  The records of [nlpy_features] and the assembly.  When
    [nlpy_features] has returned without printing a diagnostic,
    [nlpy_sentence_features] returns on each of its sentences, with one
    dictionary for each record.  When it has printed one,
    [nlpy_sentence_features] raises [KeyError: 'typeclass'] on one of its
    sentences. *)
Theorem aligned_sentences_assemble {S} (sentences : list (list string))
    (docs : list Document) (eai : Expertai S) (w w' : World S)
    (eai_sents : list (list AttributeRecord)) :
  nlpy_features sentences docs eai w = (Return eai_sents, w') ->
  (stdout w' = stdout w ->
   Forall (fun recs => exists maps,
               nlpy_sentence_features recs = Return maps
               /\ length maps = length recs) eai_sents)
  /\ (stdout w' <> stdout w ->
      Exists (fun recs => nlpy_sentence_features recs = Raise (KeyError "typeclass"))
             eai_sents).
Proof.
  unfold nlpy_features, enumerate. intros H.
  apply nlpy_features_loop_Return_world in H.
  destruct H as (new & -> & Hlen & Hout & _). simpl. rewrite Hout. clear Hout.
  split.
  - intros Heq. rewrite <- (app_nil_r (stdout w)) in Heq at 2.
    apply app_inv_head in Heq. apply map_eq_nil in Heq.
    induction Hlen as [|sentence recs sentences new Hl _ IH]; [constructor|].
    simpl in Heq. apply app_eq_nil in Heq. destruct Heq as [H1 H2].
    constructor; [|apply IH; assumption].
    destruct (sentence_features_complete recs) as (maps & Hrun & Hlm & _);
      [apply (unmatched_tokens_nil sentence); assumption|].
    exists maps. split; assumption.
  - intros Hne.
    assert (Hun : unmatched_in sentences new <> []).
    { intros Hnil. apply Hne. rewrite Hnil. simpl. apply app_nil_r. }
    clear Hne.
    induction Hlen as [|sentence recs sentences new Hl _ IH]; [simpl in Hun; congruence|].
    simpl in Hun.
    destruct (unmatched_tokens sentence recs) as [|u us] eqn:Hu.
    + apply Exists_cons_tl. apply IH. exact Hun.
    + apply Exists_cons_hd.
      destruct (unmatched_tokens_cons sentence recs) as (r & Hin & Hr);
        [rewrite Hu; discriminate|].
      eapply sentence_features_incomplete; eauto.
Qed.

Lemma aligned_sentences_assemble_witness :
  exists eai_sents w',
    nlpy_features [Sample.raw_cats] [Sample.cats_stop] Sample.eai Sample.w0
    = (Return eai_sents, w')
    /\ Forall (fun recs => exists maps,
                   nlpy_sentence_features recs = Return maps
                   /\ length maps = length recs) eai_sents.
Proof.
  destruct (nlpy_features [Sample.raw_cats] [Sample.cats_stop] Sample.eai Sample.w0)
    as [[eai_sents|e] w'] eqn:Hrun; [|vm_compute in Hrun; discriminate Hrun].
  exists eai_sents, w'. split; [reflexivity|].
  apply (aligned_sentences_assemble _ _ _ _ _ _ Hrun).
  vm_compute in Hrun. injection Hrun as _ <-. reflexivity.
Defined.

(** ** The index of a token *)

Lemma list_getitem_out_of_range {A} (l : list A) (i : Z) :
  i < - Z.of_nat (length l) \/ Z.of_nat (length l) <= i ->
  Py.list_getitem l i = Raise IndexError.
Proof.
  intros Hi. unfold Py.list_getitem, Py.norm_index.
  destruct (Z.ltb_spec i 0).
  - destruct (Z.ltb_spec (i + Z.of_nat (length l)) 0); [reflexivity | lia].
  - destruct (Z.ltb_spec i 0); [lia|].
    destruct (nth_error l (Z.to_nat i)) eqn:Hn; [|reflexivity].
    assert (Z.to_nat i < length l)%nat by (apply nth_error_Some; congruence). lia.
Qed.

(** X11.  The indices that [_nlpy_word_features] accepts.  On a sentence
    of records that have all their keys it returns exactly for
    [-len(sentence) < idx < len(sentence)] and raises [IndexError] for any
    other index, [-len(sentence)] included.  A negative index it accepts
    is taken as a first token: the dictionary has ["BOS"] and no
    ["EOS"]. *)
Theorem word_features_index_range (sentence : list AttributeRecord) (idx : Z) :
  Forall complete sentence ->
  let n := Z.of_nat (length sentence) in
  (- n < idx < n ->
   exists f, _nlpy_word_features sentence idx = Return f
             /\ (idx < 0 -> f !! "BOS" = Some (PyBool true) /\ f !! "EOS" = None))
  /\ (idx <= - n \/ n <= idx ->
      _nlpy_word_features sentence idx = Raise IndexError).
Proof.
  intros Hc. cbv zeta. split.
  - intros Hidx. destruct (Z_lt_le_dec idx 0) as [Hneg|Hpos].
    + unfold _nlpy_word_features.
      destruct (getitem_complete sentence idx Hc) as (token & tc & Ht & _ & Hgt);
        [lia|].
      rewrite Ht. cbn [result_bind]. rewrite Hgt. cbn [result_bind].
      destruct (Z.gtb_spec idx 0); [lia|]. cbn [result_bind].
      destruct (Z.ltb_spec idx (Z.of_nat (length sentence) - 1)); [|lia].
      destruct (getitem_complete sentence (idx - 1) Hc) as (r & tc1 & Hr & _ & Hg);
        [lia|].
      rewrite Hr. cbn [result_bind]. rewrite Hg. cbn [result_bind].
      eexists. split; [reflexivity|]. intros _. split; reflexivity.
    + destruct (word_features_blocks sentence idx Hc) as (f & Hf & _); [lia|].
      exists f. split; [assumption | lia].
  - intros Hout. unfold _nlpy_word_features.
    destruct (Z.eq_dec idx (- Z.of_nat (length sentence))) as [Heq|Hne].
    + destruct (Z.eq_dec (Z.of_nat (length sentence)) 0) as [H0|H0].
      * rewrite list_getitem_out_of_range by lia. reflexivity.
      * destruct (getitem_complete sentence idx Hc) as (token & tc & Ht & _ & Hgt);
          [lia|].
        rewrite Ht. cbn [result_bind]. rewrite Hgt. cbn [result_bind].
        destruct (Z.gtb_spec idx 0); [lia|]. cbn [result_bind].
        destruct (Z.ltb_spec idx (Z.of_nat (length sentence) - 1)); [|lia].
        rewrite (list_getitem_out_of_range sentence (idx - 1)) by lia.
        reflexivity.
    + rewrite list_getitem_out_of_range by lia. reflexivity.
Qed.

Lemma word_features_index_range_witness :
  (exists f, _nlpy_word_features [Sample.r0; Sample.r1; Sample.r2] (-2) = Return f
             /\ (-2 < 0 -> f !! "BOS" = Some (PyBool true) /\ f !! "EOS" = None))
  /\ _nlpy_word_features [Sample.r0; Sample.r1; Sample.r2] (-3) = Raise IndexError.
Proof.
  destruct (word_features_index_range [Sample.r0; Sample.r1; Sample.r2] (-2))
    as [Hin _]; [repeat constructor; discriminate|].
  destruct (word_features_index_range [Sample.r0; Sample.r1; Sample.r2] (-3))
    as [_ Hout]; [repeat constructor; discriminate|].
  split; [apply Hin; simpl; lia | apply Hout; simpl; lia].
Defined.

(** X12.  The left block is right: for a token that has a previous token,
    the features under [-1:] are the attributes of the record just before
    it. *)
Theorem left_block_is_previous (sentence : list AttributeRecord) (i : nat)
    (r : AttributeRecord) :
  Forall complete sentence ->
  (Datatypes.S i < length sentence)%nat ->
  nth_error sentence i = Some r ->
  exists f,
    _nlpy_word_features sentence (Z.of_nat (Datatypes.S i)) = Return f
    /\ neighbour_values "-1:" f = attributes_of r.
Proof.
  intros Hc Hlt Hr.
  destruct (word_features_blocks sentence (Z.of_nat (Datatypes.S i)) Hc)
    as (f & Hf & Hleft & _); [lia|].
  exists f. split; [assumption|].
  destruct (Z.gtb_spec (Z.of_nat (Datatypes.S i)) 0); [|lia].
  destruct Hleft as (_ & r' & Hr' & Hvals).
  replace (Z.of_nat (Datatypes.S i) - 1) with (Z.of_nat i) in Hr' by lia.
  rewrite (list_getitem_nat _ _ _ Hr) in Hr'. injection Hr' as <-. exact Hvals.
Qed.

Lemma left_block_is_previous_witness :
  exists f,
    _nlpy_word_features [Sample.r0; Sample.r1; Sample.r2] 1 = Return f
    /\ neighbour_values "-1:" f = attributes_of Sample.r0.
Proof.
  apply (left_block_is_previous [Sample.r0; Sample.r1; Sample.r2] 0 Sample.r0).
  - repeat constructor; discriminate.
  - simpl. lia.
  - reflexivity.
Defined.

(** ** The vocabulary of a dictionary *)

(** The dictionary of a token of a sentence of complete records, written
    out. *)
Lemma word_features_explicit (sentence : list AttributeRecord) (idx : Z) :
  Forall complete sentence ->
  0 <= idx < Z.of_nat (length sentence) ->
  exists token tc r tc1,
    Py.list_getitem sentence idx = Return token
    /\ typeclass token = Some tc
    /\ typeclass r = Some tc1
    /\ _nlpy_word_features sentence idx
       = let+ token := Return token in
         let+ tc := Return tc in
         let features : FeatureMap := update ∅
           [ ("bias", PyFloat 1 1);
             ("word.lower()", PyStr (Py.lower (word token)));
             ("word[-3:]", PyStr (Py.suffix 3 (word token)));
             ("word[-2:]", PyStr (Py.suffix 2 (word token)));
             ("word.isupper()", PyBool (Py.isupper (word token)));
             ("word.istitle()", PyBool (Py.istitle (word token)));
             ("word.isdigit()", PyBool (Py.isdigit (word token)));
             ("nlpy.postag", PyStr (pos token));
             ("nlpy.postag[:2]", PyStr (Py.take 2 (pos token)));
             ("nlpy.deptag", PyStr (dep token));
             ("nlpy.deptag[-2:]", PyStr (Py.suffix 2 (dep token)));
             ("nlpy.syncon", scaled (syncon token));
             ("nlpy.ancestor", scaled (ancestor token));
             ("nlpy.labels", PyStr (label token));
             ("nlpy.typeclass", PyList tc) ] in
         let+ features :=
           if idx >? 0
           then Return (update features (neighbour_items "-1:" r tc1))
           else Return (<["BOS" := PyBool true]> features) in
         let+ features :=
           if idx <? Z.of_nat (length sentence) - 1
           then Return (update features (neighbour_items "+1:" r tc1))
           else Return (<["EOS" := PyBool true]> features) in
         Return features.
Proof.
  intros Hc Hidx. unfold _nlpy_word_features.
  destruct (getitem_complete sentence idx Hc) as (token & tc & Ht & Htc & Hgt);
    [lia|].
  destruct (getitem_complete sentence (idx - 1) Hc) as (r & tc1 & Hr & Htc1 & Hg);
    [lia|].
  exists token, tc, r, tc1. split; [assumption|]. split; [assumption|].
  split; [assumption|].
  rewrite Ht. cbn [result_bind]. rewrite Hgt. cbn [result_bind].
  rewrite Hr. cbn [result_bind]. rewrite Hg. cbn [result_bind].
  destruct (idx >? 0), (idx <? Z.of_nat (length sentence) - 1); reflexivity.
Qed.

(** X13.  The features of the token itself.  In the dictionary of the
    token of index [i] the fifteen own features have the values computed
    from the record of index [i], whatever the neighbours are: the blocks
    and markers added afterwards overwrite none of them.  The syncon is
    there divided by 10000, or as the integer [-1]. *)
Theorem own_features_of_token (sentence : list AttributeRecord) (i : nat)
    (token : AttributeRecord) :
  Forall complete sentence ->
  nth_error sentence i = Some token ->
  exists f,
    _nlpy_word_features sentence (Z.of_nat i) = Return f
    /\ map (fun name => f !! name) own_names = own_values token.
Proof.
  intros Hc Hi.
  assert (Hlt : (i < length sentence)%nat) by (apply nth_error_Some; congruence).
  destruct (word_features_explicit sentence (Z.of_nat i) Hc)
    as (token' & tc & r & tc1 & Ht & Htc & _ & Hrun); [lia|].
  rewrite (list_getitem_nat _ _ _ Hi) in Ht. injection Ht as <-.
  rewrite Hrun. cbn [result_bind]. unfold own_values, scaled. rewrite Htc.
  destruct (Z.of_nat i >? 0), (Z.of_nat i <? Z.of_nat (length sentence) - 1);
    cbn [result_bind]; eexists; (split; [reflexivity|]); reflexivity.
Qed.

Lemma own_features_of_token_witness :
  exists f,
    _nlpy_word_features [Sample.r0; Sample.r1; Sample.r2] 1 = Return f
    /\ map (fun name => f !! name) own_names = own_values Sample.r1.
Proof.
  apply (own_features_of_token [Sample.r0; Sample.r1; Sample.r2] 1 Sample.r1).
  - repeat constructor; discriminate.
  - reflexivity.
Defined.

(** X14.  The keys of a dictionary depend only on the position of the
    token: the fifteen own names, then ["BOS"] or the seven names under
    [-1:], then ["EOS"] or the seven names under [+1:]; so a dictionary
    has 17, 23 or 29 keys. *)
Theorem feature_names_by_position (sentence : list AttributeRecord) (idx : Z) :
  Forall complete sentence ->
  0 <= idx < Z.of_nat (length sentence) ->
  exists f,
    _nlpy_word_features sentence idx = Return f
    /\ dom f = list_to_set (feature_names (Z.of_nat (length sentence)) idx)
    /\ size f = length (feature_names (Z.of_nat (length sentence)) idx).
Proof.
  intros Hc Hidx.
  destruct (word_features_explicit sentence idx Hc Hidx)
    as (token & tc & r & tc1 & _ & _ & _ & Hrun).
  rewrite Hrun. cbn [result_bind]. unfold feature_names.
  destruct (idx >? 0), (idx <? Z.of_nat (length sentence) - 1);
    cbn [result_bind]; eexists; (split; [reflexivity|]);
    split; vm_compute; reflexivity.
Qed.

Lemma feature_names_by_position_witness :
  exists f,
    _nlpy_word_features [Sample.r0; Sample.r1; Sample.r2] 1 = Return f
    /\ dom f = list_to_set (feature_names 3 1)
    /\ size f = 29%nat.
Proof.
  apply (feature_names_by_position [Sample.r0; Sample.r1; Sample.r2] 1).
  - repeat constructor; discriminate.
  - simpl. lia.
Defined.

(** ** Sentences and their documents *)

Lemma list_getitem_Return_nth {A} (l : list A) (i : Z) (x : A) :
  0 <= i -> Py.list_getitem l i = Return x -> nth_error l (Z.to_nat i) = Some x.
Proof.
  intros Hi. unfold Py.list_getitem, Py.norm_index.
  destruct (Z.ltb_spec i 0); [lia|]. destruct (Z.ltb_spec i 0); [lia|].
  destruct (nth_error l (Z.to_nat i)); [intros [= ->]; reflexivity | discriminate].
Qed.

Lemma align_sentence_needs_doc {S} (docs : list Document) (sent_idx : Z)
    (eai : Expertai S) (sentence : list string) (seek : Z)
    (eai_tokenlist recs : list AttributeRecord) (w w' : World S) :
  sentence <> [] ->
  align_sentence docs sent_idx eai sentence seek eai_tokenlist w = (Return recs, w') ->
  exists doc, Py.list_getitem docs sent_idx = Return doc.
Proof.
  destruct sentence as [|token sentence]; [congruence|]. intros _ H. simpl in H.
  apply bind_Return in H. destruct H as ([new_token seek'] & w1 & Hstep & _).
  apply align_token_Return in Hstep. destruct Hstep as (doc & Hdoc & _). eauto.
Qed.

Lemma nlpy_features_loop_needs_docs {S} (docs : list Document) (eai : Expertai S)
    (sentences : list (list string)) :
  forall (i : Z) (eai_sents out : list (list AttributeRecord)) (w w' : World S),
    0 <= i ->
    nlpy_features_loop (enumerate_from i sentences) docs eai eai_sents w
    = (Return out, w') ->
    forall j sentence,
      nth_error sentences j = Some sentence -> sentence <> [] ->
      (Z.to_nat i + j < length docs)%nat.
Proof.
  induction sentences as [|s sentences IH]; intros i acc out w w' Hi H j sentence Hj Hne.
  - destruct j; discriminate.
  - simpl in H. apply bind_Return in H. destruct H as (recs & w1 & Hsent & H).
    destruct j as [|j]; simpl in Hj.
    + injection Hj as ->.
      destruct (align_sentence_needs_doc _ _ _ _ _ _ _ _ _ Hne Hsent) as [doc Hdoc].
      apply list_getitem_Return_nth in Hdoc; [|assumption].
      assert (Z.to_nat i < length docs)%nat by (apply nth_error_Some; congruence).
      lia.
    + specialize (IH (i + 1) _ _ _ _ ltac:(lia) H j sentence Hj Hne). lia.
Qed.

Lemma nlpy_features_loop_empty {S} (docs : list Document) (eai : Expertai S)
    (n : nat) :
  forall (i : Z) (eai_sents : list (list AttributeRecord)) (w : World S),
    nlpy_features_loop (enumerate_from i (repeat [] n)) docs eai eai_sents w
    = (Return (eai_sents ++ repeat [] n), w).
Proof.
  induction n as [|n IH]; intros i acc w; simpl.
  - rewrite app_nil_r. reflexivity.
  - unfold bind, ret. rewrite IH, <- app_assoc. reflexivity.
Qed.

(** X15.  Which sentences need a document.  [nlpy_features] reads
    [docs[sent_idx]] only inside the loop over the tokens: when it returns,
    every sentence that has a token has a document at its index, and a
    batch of sentences without tokens gets its empty lists whatever [docs]
    is, also with no documents at all. *)
Theorem nlpy_features_needs_docs {S} (docs : list Document) (eai : Expertai S)
    (w : World S) :
  (forall sentences eai_sents w',
      nlpy_features sentences docs eai w = (Return eai_sents, w') ->
      forall j sentence,
        nth_error sentences j = Some sentence -> sentence <> [] ->
        (j < length docs)%nat)
  /\ forall n,
       nlpy_features (repeat [] n) docs eai w = (Return (repeat [] n), w).
Proof.
  split.
  - intros sentences eai_sents w' H j sentence Hj Hne.
    unfold nlpy_features, enumerate in H.
    apply (nlpy_features_loop_needs_docs _ _ _ 0 _ _ _ _ ltac:(lia) H j sentence Hj Hne).
  - intros n. unfold nlpy_features, enumerate. apply nlpy_features_loop_empty.
Qed.

Lemma nlpy_features_needs_docs_witness :
  exists eai_sents w',
    nlpy_features [Sample.raw_cats] [Sample.cats_stop] Sample.eai Sample.w0
    = (Return eai_sents, w')
    /\ (0 < length [Sample.cats_stop])%nat.
Proof.
  destruct (nlpy_features [Sample.raw_cats] [Sample.cats_stop] Sample.eai Sample.w0)
    as [[eai_sents|e] w'] eqn:Hrun; [|vm_compute in Hrun; discriminate Hrun].
  exists eai_sents, w'. split; [reflexivity|].
  apply (proj1 (nlpy_features_needs_docs [Sample.cats_stop] Sample.eai Sample.w0)
           _ _ _ Hrun 0%nat Sample.raw_cats); [reflexivity | discriminate].
Defined.

Lemma safe_lengths {S} (raw : list (list string)) (eai : Expertai S)
    (w w' : World S) (docs : list Document) (errors : list Z) :
  tokens_to_docs_safe raw eai w = (Return (docs, errors), w') ->
  (length docs + length errors)%nat = length raw.
Proof.
  unfold tokens_to_docs_safe, enumerate, bind.
  rewrite safe_loop_outcomes. cbv zeta. simpl app.
  unfold print, ret. cbn [svc calls stdout]. intros H. injection H as <- <- _.
  rewrite analysed_failed_length, analyses_length. unfold texts_of. apply length_map.
Qed.

(** X16.  The documents of the safe mode after a failure do not fit the
    sentences any more: when [tokens_to_docs_safe] has returned an error
    and the last sentence has a token, [nlpy_features] on the same
    sentences and the documents returned ends with an exception, for it
    finds no document for the last sentence. *)
Theorem safe_docs_after_failure {S} (raw : list (list string)) (eai : Expertai S)
    (w w1 : World S) (docs : list Document) (errors : list Z)
    (last : list string) :
  tokens_to_docs_safe raw eai w = (Return (docs, errors), w1) ->
  errors <> [] ->
  nth_error raw (length raw - 1) = Some last ->
  last <> [] ->
  forall w2, exists e w3, nlpy_features raw docs eai w2 = (Raise e, w3).
Proof.
  intros Hsafe Herr Hlast Hne w2.
  destruct (nlpy_features raw docs eai w2) as [[eai_sents|e] w3] eqn:Hrun; [|eauto].
  exfalso. apply safe_lengths in Hsafe.
  unfold nlpy_features, enumerate in Hrun.
  pose proof (nlpy_features_loop_needs_docs _ _ _ 0 _ _ _ _ ltac:(lia) Hrun
                _ _ Hlast Hne) as Hdoc.
  destruct errors; [congruence|]. simpl in Hsafe, Hdoc. lia.
Qed.

Lemma safe_docs_after_failure_witness :
  exists docs errors w1,
    tokens_to_docs_safe [["a"]; ["bad"]; ["c"]] Sample.eai Sample.w0
    = (Return (docs, errors), w1)
    /\ exists e w3,
         nlpy_features [["a"]; ["bad"]; ["c"]] docs Sample.eai Sample.w0
         = (Raise e, w3).
Proof.
  destruct (tokens_to_docs_safe [["a"]; ["bad"]; ["c"]] Sample.eai Sample.w0)
    as [[[docs errors]|e] w1] eqn:Hsafe; [|vm_compute in Hsafe; discriminate Hsafe].
  exists docs, errors, w1. split; [reflexivity|].
  apply (safe_docs_after_failure _ _ _ _ _ _ ["c"] Hsafe).
  - vm_compute in Hsafe. injection Hsafe as _ <- _. discriminate.
  - reflexivity.
  - discriminate.
Defined.

(** ** A raw token that the text does not have *)

(** X17.  A raw token that [find] does not find is not reported.  Its
    span is taken to be [[-1, len(token) - 1]], so when the document has a
    token that starts at 0 and the raw token is not empty, there is a
    candidate: a step that returns has built a record with the raw token as
    its word from an expert.ai token that passes the test for that span,
    and has printed nothing. *)
Theorem unfound_token_not_reported {S} (docs : list Document) (sent_idx : Z)
    (eai : Expertai S) (token : string) (seek : Z) (w w' : World S)
    (doc : Document) (t : Token) (rec : AttributeRecord) (seek' : Z) :
  Py.list_getitem docs sent_idx = Return doc ->
  Py.find (content doc) token seek = -1 ->
  token <> "" ->
  In t (tokens doc) -> t_start t = 0 ->
  align_token docs sent_idx eai token seek w = (Return (rec, seek'), w') ->
  word rec = token
  /\ (exists t', In t' (tokens doc)
                 /\ overlaps (-1) (-1 + Py.len token) t' = true
                 /\ pos rec = t_pos t' /\ syncon rec = t_syncon t')
  /\ stdout w' = stdout w.
Proof.
  intros Hdoc Hfind Hne Hin Hstart Hrun.
  assert (Hlen : 1 <= Py.len token).
  { unfold Py.len. destruct token; [congruence | simpl String.length; lia]. }
  assert (Hcand : In t (candidates doc token seek)).
  { unfold candidates. rewrite Hfind. apply filter_In. split; [assumption|].
    unfold overlaps. rewrite Hstart.
    rewrite !orb_true_iff, !andb_true_iff, !Z.geb_le, !Z.leb_le. lia. }
  pose proof (align_token_Return_world _ _ _ _ _ _ _ _ _ Hrun) as [Hout _].
  apply align_token_Return in Hrun.
  destruct Hrun as (doc' & Hdoc' & _ & [[Hnil _] | (t' & anc & lab & Ht' & _ & _ & _ & ->)]);
    rewrite Hdoc in Hdoc'; injection Hdoc' as <-.
  - rewrite Hnil in Hcand. destruct Hcand.
  - simpl in Hout. rewrite app_nil_r in Hout.
    split; [reflexivity|]. split; [|assumption].
    exists t'. apply ranked_getitem_In in Ht'. unfold candidates in Ht'.
    rewrite Hfind in Ht'. apply filter_In in Ht'. destruct Ht' as [Hin' Hov].
    split; [assumption|]. split; [assumption|]. simpl. auto.
Qed.

Lemma unfound_token_not_reported_witness :
  exists rec seek' w',
    align_token [Sample.cats_stop] 0 Sample.eai "dogs" 0 Sample.w0
    = (Return (rec, seek'), w')
    /\ word rec = "dogs" /\ stdout w' = [].
Proof.
  destruct (align_token [Sample.cats_stop] 0 Sample.eai "dogs" 0 Sample.w0)
    as [[[rec seek']|e] w'] eqn:Hrun; [|vm_compute in Hrun; discriminate Hrun].
  exists rec, seek', w'. split; [reflexivity|].
  destruct (unfound_token_not_reported [Sample.cats_stop] 0 Sample.eai "dogs" 0
              Sample.w0 w' Sample.cats_stop
              (mkToken 0 4 "NOU" 100 "nsubj" "NOU.animal") rec seek')
    as (Hword & _ & Hout);
    [reflexivity | reflexivity | discriminate | left; reflexivity | reflexivity
    | exact Hrun | ].
  split; assumption.
Defined.

(** ** The cursor inside an ordinary text *)

(** X18.  Inside a text where the raw token stands at the cursor and a
    single space and an ordinary token follow it, a step that returns has
    taken as candidates the expert.ai tokens that meet the span of the raw
    token itself, and leaves the cursor on the first character of the next
    token. *)
Theorem cursor_follows_tokens {S} (docs : list Document) (sent_idx : Z)
    (eai : Expertai S) (doc : Document) (before token next after : string)
    (w w' : World S) (rec : AttributeRecord) (seek' : Z) :
  Py.list_getitem docs sent_idx = Return doc ->
  content doc = before +:+ (token +:+ (" " +:+ (next +:+ after))) ->
  plain next ->
  align_token docs sent_idx eai token (Py.len before) w = (Return (rec, seek'), w') ->
  candidates doc token (Py.len before)
  = List.filter (overlaps (Py.len before) (Py.len before + Py.len token)) (tokens doc)
  /\ seek' = Py.len before + Py.len token + 1
  /\ Py.find (content doc) next seek' = seek'.
Proof.
  intros Hdoc Hcontent Hnext Hrun.
  assert (Hfind : Py.find (content doc) token (Py.len before) = Py.len before).
  { rewrite Hcontent. apply find_here. }
  split; [unfold candidates; rewrite Hfind; reflexivity|].
  apply align_token_Return in Hrun.
  destruct Hrun as (doc' & Hdoc' & Hskip & _).
  rewrite Hdoc in Hdoc'. injection Hdoc' as <-. rewrite Hfind in Hskip.
  destruct (plain_head next Hnext) as (c & tl & -> & Hc).
  rewrite Hcontent in Hskip.
  change (" " +:+ (String c tl +:+ after))
    with (String " " (String c (tl +:+ after))) in Hskip.
  rewrite <- append_assoc, <- len_append in Hskip.
  rewrite skip_spaces_one in Hskip by assumption. injection Hskip as <-.
  rewrite len_append. split; [reflexivity|].
  rewrite Hcontent.
  replace (before +:+ (token +:+ (" " +:+ (String c tl +:+ after))))
    with (((before +:+ token) +:+ " ") +:+ (String c tl +:+ after))
    by (rewrite !append_assoc; reflexivity).
  replace (Py.len before + Py.len token + 1)
    with (Py.len ((before +:+ token) +:+ " "))
    by (rewrite !len_append; reflexivity).
  apply find_here.
Qed.

Lemma cursor_follows_tokens_witness :
  exists rec w',
    align_token [Sample.cats_stop] 0 Sample.eai "are" 5 Sample.w0
    = (Return (rec, 9), w')
    /\ Py.find (content Sample.cats_stop) "great" 9 = 9.
Proof.
  destruct (align_token [Sample.cats_stop] 0 Sample.eai "are" 5 Sample.w0)
    as [[[rec seek']|e] w'] eqn:Hrun; [|vm_compute in Hrun; discriminate Hrun].
  destruct (cursor_follows_tokens [Sample.cats_stop] 0 Sample.eai Sample.cats_stop
              "cats " "are" "great" "." Sample.w0 w' rec seek')
    as (_ & Hseek & Hfind);
    [reflexivity | reflexivity | split; [discriminate | reflexivity] | exact Hrun |].
  subst seek'. exists rec, w'. split; [reflexivity | exact Hfind].
Defined.

(** ** The exceptions *)

Lemma get_ancestor_Raise {S} (syncon : Z) (eai : Expertai S) (w w' : World S)
    (e : exn) :
  _get_ancestor syncon eai w = (Raise e, w') ->
  e = IndexError
  \/ exists params s s', linked_syncons eai params 0 1 s = (Raise e, s').
Proof.
  unfold _get_ancestor. destruct (syncon =? -1); [discriminate|].
  unfold bind, eai_linked_syncons.
  destruct (linked_syncons eai _ 0 1 (svc w)) as [[ancestor|e'] s] eqn:Hl.
  - destruct (max_records ancestor =? 0); [discriminate|].
    unfold lift. intros [= H _]. left. eapply list_getitem_Raise; eauto.
  - intros [= -> _]. right. eauto.
Qed.

Lemma align_token_Raise {S} (docs : list Document) (sent_idx : Z)
    (eai : Expertai S) (token : string) (seek : Z) (w w' : World S) (e : exn) :
  align_token docs sent_idx eai token seek w = (Raise e, w') ->
  e = IndexError
  \/ exists params s s', linked_syncons eai params 0 1 s = (Raise e, s').
Proof.
  unfold align_token. unfold bind at 1. unfold lift at 1.
  destruct (Py.list_getitem docs sent_idx) as [doc|e'] eqn:Hdoc;
    [|intros [= -> _]; left; eapply list_getitem_Raise; eauto].
  fold (candidates doc token seek).
  destruct (candidates doc token seek) as [|c cs] eqn:Hc.
  - unfold bind, print, ret, lift. cbn [svc calls stdout].
    destruct (skip_spaces _ _) as [sk|e'] eqn:Hsk; [discriminate|].
    intros [= -> _]. left. eapply skip_spaces_Raise; eauto.
  - rewrite <- Hc. unfold bind at 1. unfold bind at 1. unfold lift at 1.
    destruct (Py.list_getitem (ranked (candidates doc token seek)) 0)
      as [t|e'] eqn:Ht;
      [|intros [= -> _]; left; eapply list_getitem_Raise; eauto].
    unfold bind at 1.
    destruct (_get_ancestor (t_syncon t) eai w) as [[anc|e'] w1] eqn:Hanc;
      [|intros [= -> _]; eapply get_ancestor_Raise; eauto].
    unfold bind, lift, ret.
    destruct (get_label_no_dot doc (t_syncon t)) as (lab & -> & _).
    destruct (skip_spaces _ _) as [sk|e'] eqn:Hsk; [discriminate|].
    intros [= -> _]. left. eapply skip_spaces_Raise; eauto.
Qed.

Lemma align_sentence_Raise {S} (docs : list Document) (sent_idx : Z)
    (eai : Expertai S) (sentence : list string) :
  forall (seek : Z) (eai_tokenlist : list AttributeRecord) (w w' : World S)
         (e : exn),
    align_sentence docs sent_idx eai sentence seek eai_tokenlist w = (Raise e, w') ->
    e = IndexError
    \/ exists params s s', linked_syncons eai params 0 1 s = (Raise e, s').
Proof.
  induction sentence as [|token sentence IH]; intros seek acc w w' e; simpl;
    [discriminate|].
  unfold bind at 1.
  destruct (align_token docs sent_idx eai token seek w)
    as [[[new_token seek']|e'] w1] eqn:Hstep.
  - apply IH.
  - intros [= -> _]. eapply align_token_Raise; eauto.
Qed.

Lemma nlpy_features_loop_Raise {S} (docs : list Document) (eai : Expertai S)
    (sentences : list (list string)) :
  forall (i : Z) (eai_sents : list (list AttributeRecord)) (w w' : World S)
         (e : exn),
    nlpy_features_loop (enumerate_from i sentences) docs eai eai_sents w
    = (Raise e, w') ->
    e = IndexError
    \/ exists params s s', linked_syncons eai params 0 1 s = (Raise e, s').
Proof.
  induction sentences as [|sentence sentences IH]; intros i acc w w' e; simpl;
    [discriminate|].
  unfold bind at 1.
  destruct (align_sentence docs i eai sentence 0 [] w) as [[recs|e'] w1] eqn:Hsent.
  - apply IH.
  - intros [= -> _]. eapply align_sentence_Raise; eauto.
Qed.

(** X19.  The exceptions of [nlpy_features].  When it ends with an
    exception, this is [IndexError] (a subscript of [docs], of the text or
    of the list of a lookup) or an exception that a call of
    [linked_syncons] with offset 0 and limit 1 raised, which passes through
    unchanged.  So with a client whose lookups all return it is
    [IndexError], and it is a [KeyError] only if a lookup raised that
    [KeyError]. *)
Theorem nlpy_features_exceptions {S} (sentences : list (list string))
    (docs : list Document) (eai : Expertai S) (w w' : World S) (e : exn) :
  nlpy_features sentences docs eai w = (Raise e, w') ->
  (e = IndexError
   \/ exists params s s', linked_syncons eai params 0 1 s = (Raise e, s'))
  /\ ((forall params s, exists answer s',
          linked_syncons eai params 0 1 s = (Return answer, s')) ->
      e = IndexError)
  /\ (forall key, e = KeyError key ->
        exists params s s',
          linked_syncons eai params 0 1 s = (Raise (KeyError key), s')).
Proof.
  unfold nlpy_features, enumerate. intros H.
  apply nlpy_features_loop_Raise in H.
  split; [assumption|]. split.
  - intros Hanswers.
    destruct H as [He | (params & s & s' & Hl)]; [assumption|].
    destruct (Hanswers params s) as (answer & s'' & Ha). congruence.
  - intros key ->. destruct H as [He | H]; [discriminate | exact H].
Qed.

Lemma nlpy_features_exceptions_witness :
  exists e w',
    nlpy_features [Sample.raw_cats] [Sample.cats] Sample.eai Sample.w0 = (Raise e, w')
    /\ e = IndexError.
Proof.
  destruct (nlpy_features [Sample.raw_cats] [Sample.cats] Sample.eai Sample.w0)
    as [[eai_sents|e] w'] eqn:Hrun; [vm_compute in Hrun; discriminate Hrun|].
  exists e, w'. split; [reflexivity|].
  apply (nlpy_features_exceptions _ _ _ _ _ _ Hrun).
  intros params s. exists (mkLinked 1 [p_syncon params + 1]), s. reflexivity.
Defined.

(** X20.  When the assembly returns.  [nlpy_sentence_features] returns
    exactly on the sentences all of whose records have the key
    ['typeclass']; on any other sentence it raises [KeyError: 'typeclass'],
    and it raises nothing else. *)
Theorem sentence_features_returns_iff (sentence : list AttributeRecord) :
  (Forall complete sentence <-> returns (nlpy_sentence_features sentence))
  /\ (forall e, nlpy_sentence_features sentence = Raise e ->
                e = KeyError "typeclass"
                /\ exists r, In r sentence /\ typeclass r = None).
Proof.
  assert (Hraise : (exists r, In r sentence /\ typeclass r = None) ->
                   nlpy_sentence_features sentence = Raise (KeyError "typeclass")).
  { intros (r & Hin & Hr). eapply sentence_features_incomplete; eauto. }
  assert (Hdec : Forall complete sentence
                 \/ exists r, In r sentence /\ typeclass r = None).
  { clear. induction sentence as [|r sentence IH]; [left; constructor|].
    destruct (typeclass r) as [tc|] eqn:Htc.
    - destruct IH as [IH | (r' & Hin & Hr')].
      + left. constructor; [unfold complete; congruence | assumption].
      + right. exists r'. split; [right; assumption | assumption].
    - right. exists r. split; [left; reflexivity | assumption]. }
  split; [split|].
  - intros Hc. destruct (sentence_features_complete sentence Hc) as (maps & Hrun & _).
    exists maps. exact Hrun.
  - intros [maps Hrun]. destruct Hdec as [Hc | Hex]; [assumption|].
    rewrite (Hraise Hex) in Hrun. discriminate.
  - intros e Hrun. destruct Hdec as [Hc | Hex].
    + destruct (sentence_features_complete sentence Hc) as (maps & Hrun' & _).
      congruence.
    + rewrite (Hraise Hex) in Hrun. injection Hrun as <-. auto.
Qed.

Lemma sentence_features_returns_iff_witness :
  exists r, In r [Sample.r0; _voidtoken] /\ typeclass r = None.
Proof.
  apply (proj2 (sentence_features_returns_iff [Sample.r0; _voidtoken])
           (KeyError "typeclass")).
  reflexivity.
Defined.

(** ** Ordinary batches *)

(** X21.  A batch whose first sentence is made of ordinary tokens (not
    empty, without a space) and whose first document holds these tokens
    joined by single spaces, as [tokens_to_docs] submits them, is never
    processed: [nlpy_features] ends with an exception whatever the client
    answers and whatever follows in the batch. *)
Theorem joined_text_never_returns {S} (sentence : list string)
    (sentences : list (list string)) (doc : Document) (docs : list Document)
    (eai : Expertai S) (w : World S) :
  sentence <> [] ->
  Forall plain sentence ->
  content doc = Py.join " " sentence ->
  exists e w',
    nlpy_features (sentence :: sentences) (doc :: docs) eai w = (Raise e, w').
Proof.
  intros Hne Hplain Hcontent. unfold nlpy_features, enumerate. simpl.
  unfold bind at 1.
  destruct (align_sentence_joined (doc :: docs) 0 eai doc sentence eq_refl Hne
              Hplain "" [] w Hcontent) as (e & w' & Hrun).
  change (Py.len "") with 0 in Hrun. rewrite Hrun. eauto.
Qed.

Lemma joined_text_never_returns_witness :
  exists e w',
    nlpy_features [Sample.raw_cats; ["x"]] [Sample.cats; Sample.unmatched]
                  Sample.eai Sample.w0
    = (Raise e, w').
Proof.
  apply (joined_text_never_returns Sample.raw_cats [["x"]] Sample.cats
           [Sample.unmatched] Sample.eai Sample.w0).
  - discriminate.
  - repeat constructor; discriminate.
  - reflexivity.
Defined.

(** ** The two blocks *)

(** X22.  The right block as the code fills it.  For a token between two
    others the features under [+1:] have the values of those under [-1:],
    both read from [sentence[idx-1]]; for the first token of a longer
    sentence they are the attributes of the last record,
    [sentence[-1]]. *)
Theorem right_block_copies_left (sentence : list AttributeRecord) :
  Forall complete sentence ->
  (forall idx,
      0 < idx < Z.of_nat (length sentence) - 1 ->
      exists f,
        _nlpy_word_features sentence idx = Return f
        /\ neighbour_values "+1:" f = neighbour_values "-1:" f)
  /\ (forall last,
        (1 < length sentence)%nat ->
        nth_error sentence (length sentence - 1) = Some last ->
        exists f,
          _nlpy_word_features sentence 0 = Return f
          /\ neighbour_values "+1:" f = attributes_of last).
Proof.
  intros Hc. split.
  - intros idx Hidx.
    destruct (word_features_blocks sentence idx Hc) as (f & Hf & Hleft & Hright);
      [lia|].
    destruct (Z.gtb_spec idx 0); [|lia].
    destruct (Z.ltb_spec idx (Z.of_nat (length sentence) - 1)); [|lia].
    destruct Hleft as (_ & r & Hr & Hl). destruct Hright as (_ & r' & Hr' & Hr2).
    exists f. split; [assumption|]. congruence.
  - intros last Hlen Hlast.
    destruct (word_features_blocks sentence 0 Hc) as (f & Hf & _ & Hright); [lia|].
    destruct (Z.ltb_spec 0 (Z.of_nat (length sentence) - 1)); [|lia].
    destruct Hright as (_ & r & Hr & Hvals).
    exists f. split; [assumption|]. rewrite Hvals. f_equal.
    change (0 - 1) with (-1) in Hr.
    rewrite (list_getitem_last _ last) in Hr by (destruct sentence; [simpl in Hlen; lia | discriminate]).
    injection Hr as <-.
    clear - Hlast. revert Hlast.
    replace (length sentence - 1)%nat with (pred (length sentence)) by lia.
    induction sentence as [|x l IH]; [discriminate|].
    destruct l as [|y l]; [simpl; congruence|].
    intros H. apply IH. exact H.
Qed.

Lemma right_block_copies_left_witness :
  (exists f,
      _nlpy_word_features [Sample.r0; Sample.r1; Sample.r2] 1 = Return f
      /\ neighbour_values "+1:" f = neighbour_values "-1:" f)
  /\ exists f,
       _nlpy_word_features [Sample.r0; Sample.r1; Sample.r2] 0 = Return f
       /\ neighbour_values "+1:" f = attributes_of Sample.r2.
Proof.
  destruct (right_block_copies_left [Sample.r0; Sample.r1; Sample.r2]) as [Hmid Hfirst];
    [repeat constructor; discriminate|].
  split.
  - apply Hmid. simpl. lia.
  - apply Hfirst; [simpl; lia | reflexivity].
Defined.
